(** * KYC mini backend: image acquisition and upstream forwarding

    A shallow embedding of [src/index.js] (an Express gateway that takes an
    identity-verification request, obtains the image either from inline
    base64 or from an allow-listed remote URL, and relays the request to the
    upstream KYC engine), followed by the properties of its specification.

    Conventions of the embedding.
    - A JavaScript string is a [string]; each [ascii] stands for one code
      unit in the range 0..255.  White space ([trim], the regex class \s) is
      therefore the code units 9-13, 32 and 160.
    - A JavaScript value that the handlers only test for truthiness and
      convert with [String(...)] is a [Value].
    - [async] code is sequential inside one request: an [await] is a bind of
      the effect monad [Eff], whose state is the trace of calls made to the
      platform (timers and [fetch]).
    - Time is not measured.  The network says, for each call, whether it
      responds or fails before the timer armed for that call fires, or is
      still pending at that moment; in the last case the timer's callback
      aborts the call, which then rejects with an [AbortError].
    - What Node.js provides ([URL], [JSON.parse], [Buffer], [process.env],
      the network) is a parameter: the class [Platform] and the record
      [World].  What Express does with [res.status(code).json(body)] is not
      modelled: a reply is the pair of arguments of that call. *)

From Stdlib Require Import ZArith Lia Bool List.
From Stdlib Require Import Strings.String Strings.Ascii Numbers.DecimalString.
From Stdlib Require Import Numbers.DecimalPos.
From stdpp Require Import base gmap strings.
Import ListNotations.

Local Open Scope string_scope.
Local Open Scope Z_scope.
Local Open Scope list_scope.

(** ** String.prototype *)

Module Js.

(** WhiteSpace and LineTerminator code units below 256. *)
Definition isWhite (c : ascii) : bool :=
  match N_of_ascii c with
  | 9%N | 10%N | 11%N | 12%N | 13%N | 32%N | 160%N => true
  | _ => false
  end.

Fixpoint trimStart (s : string) : string :=
  match s with
  | EmptyString => EmptyString
  | String c r => if isWhite c then trimStart r else s
  end.

Fixpoint trimEnd (s : string) : string :=
  match s with
  | EmptyString => EmptyString
  | String c r =>
      match trimEnd r with
      | EmptyString => if isWhite c then EmptyString else String c EmptyString
      | r' => String c r'
      end
  end.

(** [s.trim()] *)
Definition trim (s : string) : string := trimEnd (trimStart s).

(** [s.replace(/\s+/g, '')] *)
Fixpoint stripWhite (s : string) : string :=
  match s with
  | EmptyString => EmptyString
  | String c r => if isWhite c then stripWhite r else String c (stripWhite r)
  end.

(** [s.startsWith(p)] *)
Fixpoint startsWith (s p : string) {struct p} : bool :=
  match p, s with
  | EmptyString, _ => true
  | String _ _, EmptyString => false
  | String a p', String b s' => Ascii.eqb a b && startsWith s' p'
  end.

(** [s.endsWith(p)]: [p] matches at position [length s - length p]. *)
Fixpoint endsWith (s p : string) : bool :=
  match s with
  | EmptyString => String.eqb p EmptyString
  | String _ r => String.eqb s p || endsWith r p
  end.

(** [s.includes(p)] *)
Fixpoint includes (s p : string) : bool :=
  match s with
  | EmptyString => startsWith s p
  | String _ r => startsWith s p || includes r p
  end.

(** [s.indexOf(c)] for a one-character needle; -1 when absent. *)
Fixpoint indexOf (s : string) (c : ascii) : Z :=
  match s with
  | EmptyString => -1
  | String a r =>
      if Ascii.eqb a c then 0
      else let i := indexOf r c in if i <? 0 then -1 else i + 1
  end.

Fixpoint drop (n : nat) (s : string) : string :=
  match n, s with
  | O, _ => s
  | S _, EmptyString => EmptyString
  | S n', String _ r => drop n' r
  end.

(** [s.slice(start)]: a negative [start] counts from the end. *)
Definition slice (s : string) (start : Z) : string :=
  let len := Z.of_nat (String.length s) in
  let from := if start <? 0 then Z.max (len + start) 0 else Z.min start len in
  drop (Z.to_nat from) s.

(** Lower-casing of one code unit: A-Z, and the Latin-1 capitals
    0xC0-0xDE other than the multiplication sign 0xD7. *)
Definition lowerChar (c : ascii) : ascii :=
  let n := N_of_ascii c in
  if ((65 <=? n) && (n <=? 90))%N then ascii_of_N (n + 32)
  else if ((192 <=? n) && (n <=? 222) && negb (n =? 215))%N then ascii_of_N (n + 32)
  else c.

Fixpoint toLowerCase (s : string) : string :=
  match s with
  | EmptyString => EmptyString
  | String c r => String (lowerChar c) (toLowerCase r)
  end.

(** [s.replace(/\/$/, '')]: drop one trailing slash. *)
Fixpoint dropTrailingSlash (s : string) : string :=
  match s with
  | EmptyString => EmptyString
  | String c r =>
      match r with
      | EmptyString => if Ascii.eqb c "/" then EmptyString else s
      | _ => String c (dropTrailingSlash r)
      end
  end.

(** Template-literal interpolation of an integer: its decimal numeral
    (JavaScript writes numbers from 10^21 on in exponent form). *)
Definition ofInt (z : Z) : string := NilZero.string_of_int (Z.to_int z).

Definition isDigit (c : ascii) : bool :=
  let n := N_of_ascii c in ((48 <=? n) && (n <=? 57))%N.

Definition digitVal (c : ascii) : Z := Z.of_N (N_of_ascii c) - 48.

(** The digits loop of [parseInt]: [None] when no digit was read. *)
Fixpoint digits (acc : option Z) (s : string) : option Z :=
  match s with
  | EmptyString => acc
  | String c r =>
      if isDigit c
      then digits (Some (10 * (match acc with Some a => a | None => 0 end) + digitVal c)) r
      else acc
  end.

(** [Number.parseInt(s, 10)]: leading white space, an optional sign, the
    longest run of decimal digits; [None] is NaN.  The mathematical value is
    kept exact (JavaScript rounds it to the nearest double above 2^53). *)
Definition parseInt (s : string) : option Z :=
  match trimStart s with
  | String "-" r => option_map Z.opp (digits None r)
  | String "+" r => digits None r
  | t => digits None t
  end.

(** [Number.isFinite] on a [parseInt] result: NaN is not finite, and an
    integer rounds to Infinity from 2^1024 - 2^970 on. *)
Definition isFinite (n : option Z) : bool :=
  match n with
  | None => false
  | Some z => Z.abs z <? 2 ^ 1024 - 2 ^ 970
  end.

End Js.

(** ** Values, errors and completions *)

(** What a request field or a variable of the handlers can hold.  [VOther]
    is any value of another type (a number, an array, an object) given by
    the two observations the code makes of it: [ToBoolean] and [String(v)]. *)
Inductive Value : Type :=
| VUndefined
| VNull
| VBool (b : bool)
| VString (s : string)
| VOther (truthy_ : bool) (str : string).

(** [ToBoolean] *)
Definition truthy (v : Value) : bool :=
  match v with
  | VUndefined | VNull => false
  | VBool b => b
  | VString s => negb (String.eqb s "")
  | VOther t _ => t
  end.

(** [String(v)] *)
Definition toString (v : Value) : string :=
  match v with
  | VUndefined => "undefined"
  | VNull => "null"
  | VBool true => "true"
  | VBool false => "false"
  | VString s => s
  | VOther _ s => s
  end.

(** [a || b] *)
Definition or_ (a b : Value) : Value := if truthy a then a else b.
Infix "|||" := or_ (at level 50, left associativity).

(** A variable that holds [null] or a string. *)
Definition ofNullable (o : option string) : Value :=
  match o with
  | None => VNull
  | Some s => VString s
  end.

(** A thrown exception: an [Error] object observed through [name] and
    [message]. *)
Record JsError : Type := mkError { name : string; message : string }.

(** [new Error(msg)] *)
Definition Error (msg : string) : JsError := mkError "Error" msg.

(** How a call completes: it returns, or it throws. *)
Inductive Completion (A : Type) : Type :=
| Normal (a : A)
| Throw (e : JsError).
Arguments Normal {A} a.
Arguments Throw {A} e.

(** ** The platform *)

(** The two accessors of a [URL] object that the guard reads. *)
Record URL : Type := mkURL { protocol : string; hostname : string }.

(** An HTTP request as passed to [fetch]. *)
Record Request : Type := mkRequest {
  method : string;
  url : string;
  headers : list (string * string);
  (** the object given to [JSON.stringify], field by field *)
  body : option (list (string * option string))
}.

(** Reading the body of a response ([text()], [arrayBuffer()]). *)
Inductive BodyRead : Type :=
| BodyOk (content : string)   (** read completely before the timer fires *)
| BodyFail (e : JsError)      (** the read rejects before the timer fires *)
| BodyStalled.                (** still being read when the timer fires *)

Record HttpResponse : Type := mkResponse { status : Z; payload : BodyRead }.

(** [resp.ok] *)
Definition ok (r : HttpResponse) : bool := (200 <=? status r) && (status r <=? 299).

(** What a call of [fetch] does, relative to the timer armed before it. *)
Inductive NetReply : Type :=
| Responds (r : HttpResponse) (** the promise resolves before the timer fires *)
| Fails (e : JsError)         (** the promise rejects before the timer fires *)
| Stalls.                     (** still pending when the timer fires *)

(** The calls a request makes to the platform, in order. *)
Inductive Event : Type :=
| EvSetTimeout (ms : Z)
| EvFetch (req : Request)
| EvAbort
| EvClearTimeout.

(** The library functions of Node.js that the code calls. *)
Class Platform : Type := {
  (** [new URL(s)]; [None] when the constructor throws *)
  URL_parse : string -> option URL;
  (** the values [JSON.parse] produces *)
  JSON : Type;
  (** [JSON.parse(s)]; [None] when it throws *)
  JSON_parse : string -> option JSON;
  (** [Buffer.from(bytes).toString('base64')] *)
  toBase64 : string -> string
}.

(** What surrounds one request: the environment variables and the network,
    which answers a [fetch] knowing everything that happened before. *)
Record World : Type := mkWorld {
  env : gmap string string;
  net : list Event -> Request -> NetReply
}.

(** The [TypeError] of the [URL] constructor. *)
Definition InvalidUrl : JsError := mkError "TypeError" "Invalid URL".

(** The exception with which an aborted [fetch] or body read rejects. *)
Definition AbortError : JsError := mkError "AbortError" "This operation was aborted".

(** ** The pure core: index.js lines 15-50 *)

Definition normalizeRemoteUrl (input : Value) : option string :=
  match input with
  | VUndefined | VNull => None
  | _ =>
      let s := toString input in
      let trimmed := Js.trim s in
      if String.eqb trimmed "" then None
      else Some (Js.stripWhite trimmed)
  end.

Definition hostAllowed (host : string) : bool :=
  String.eqb host "res.cloudinary.com" || Js.endsWith host ".cloudinary.com".

Definition assertAllowedRemoteUrl `{Platform} (urlString : string) : Completion unit :=
  match URL_parse urlString with
  | None => Throw InvalidUrl
  | Some uri =>
      if negb (String.eqb (protocol uri) "https:")
      then Throw (Error ("Only https URLs are allowed: " +:+ urlString))
      else
        let host := Js.toLowerCase (hostname uri) in
        let allowed := hostAllowed host in
        if negb allowed
        then Throw (Error ("Remote URL host not allowed: " +:+ host))
        else Normal tt
  end.

Definition normalizeBase64 (b64 : Value) : option string :=
  if negb (truthy b64) then None
  else
    let s := Js.trim (toString b64) in
    if String.eqb s "" then None
    else if Js.startsWith s "data:" && (0 <=? Js.indexOf s ",")
    then Some (Js.slice s (Js.indexOf s "," + 1))
    else Some s.

Definition asImageDataUri (b64 : Value) : option string :=
  match normalizeBase64 b64 with
  | None => None
  | Some raw =>
      if String.eqb raw "" then None
      else Some ("data:image/jpeg;base64," +:+ raw)
  end.

(** ** Effects *)

(** A computation takes the trace so far and gives its completion and the
    extended trace. *)
Definition Eff (A : Type) : Type := list Event -> Completion A * list Event.

Definition ret {A} (a : A) : Eff A := fun tr => (Normal a, tr).

Definition throw {A} (e : JsError) : Eff A := fun tr => (Throw e, tr).

Definition bind {A B} (m : Eff A) (k : A -> Eff B) : Eff B :=
  fun tr =>
    match m tr with
    | (Normal a, tr') => k a tr'
    | (Throw e, tr') => (Throw e, tr')
    end.

Notation "x <- m ;; k" := (bind m (fun x => k))
  (at level 100, m at next level, right associativity).
Notation "m ;;; k" := (bind m (fun _ => k))
  (at level 100, right associativity).

(** A synchronous call that may throw. *)
Definition lift {A} (c : Completion A) : Eff A := fun tr => (c, tr).

Definition emit (ev : Event) : Eff unit := fun tr => (Normal tt, tr ++ [ev]).

(** [try { m } catch (e) { h e }] *)
Definition tryCatch {A} (m : Eff A) (h : JsError -> Eff A) : Eff A :=
  fun tr =>
    match m tr with
    | (Normal a, tr') => (Normal a, tr')
    | (Throw e, tr') => h e tr'
    end.

(** [try { m } finally { f }], for an [f] that returns. *)
Definition finally {A} (m : Eff A) (f : Eff unit) : Eff A :=
  fun tr =>
    match m tr with
    | (c, tr') => (c, snd (f tr'))
    end.

(** [await fetchFn(url, { ..., signal })].  When the call is still pending
    as the timer fires, the timer's callback aborts the controller and the
    promise rejects with an [AbortError]. *)
Definition fetchFn (w : World) (req : Request) : Eff HttpResponse :=
  fun tr =>
    let tr' := tr ++ [EvFetch req] in
    match net w tr req with
    | Responds r => (Normal r, tr')
    | Fails e => (Throw e, tr')
    | Stalls => (Throw AbortError, tr' ++ [EvAbort])
    end.

(** [await resp.text()] and [await resp.arrayBuffer()]: the body as read
    (a byte and the code unit of the same number are identified). *)
Definition readBody (resp : HttpResponse) : Eff string :=
  match payload resp with
  | BodyOk content => ret content
  | BodyFail e => throw e
  | BodyStalled => emit EvAbort ;;; throw AbortError
  end.

(** [process.env[k] || dflt] *)
Definition envOr (w : World) (k dflt : string) : string :=
  match env w !! k with
  | Some v => if String.eqb v "" then dflt else v
  | None => dflt
  end.

(** [String(e?.name || '').toLowerCase().includes('abort')] *)
Definition isAbort (e : JsError) : bool :=
  Js.includes (Js.toLowerCase (name e)) "abort".

(** [Number.isFinite(timeoutMs) ? timeoutMs : dflt] *)
Definition resolveTimeout (timeoutMs : option Z) (dflt : Z) : Z :=
  match timeoutMs with
  | Some z => if Js.isFinite timeoutMs then z else dflt
  | None => dflt
  end.

Definition downloadHeaders : list (string * string) :=
  [("User-Agent", "Mozilla/5.0 (KYC Mini Backend)"); ("Accept", "image/*")].

Definition jsonHeaders : list (string * string) :=
  [("Content-Type", "application/json"); ("Accept", "application/json")].

(** ** The remote image fetcher: index.js lines 52-88 *)

Definition downloadRemoteImageAsBase64 `{Platform} (w : World)
    (urlString : Value) (label : string) : Eff string :=
  match normalizeRemoteUrl urlString with
  | None => throw (Error ("Missing " +:+ label +:+ " URL"))
  | Some normalized =>
      if String.eqb normalized "" then throw (Error ("Missing " +:+ label +:+ " URL"))
      else
      lift (assertAllowedRemoteUrl normalized) ;;;
      let timeoutMs := Js.parseInt (envOr w "HTTP_DOWNLOAD_TIMEOUT_MS" "45000") in
      let resolvedTimeoutMs := resolveTimeout timeoutMs 45000 in
      emit (EvSetTimeout resolvedTimeoutMs) ;;;
      finally
        (tryCatch
           (resp <- fetchFn w (mkRequest "GET" normalized downloadHeaders None) ;;
            if negb (ok resp) then
              body <- tryCatch (readBody resp) (fun _ => ret "") ;;
              throw (Error ("HTTP " +:+ Js.ofInt (status resp) +:+ " while downloading "
                            +:+ label +:+ ": " +:+ body))
            else
              arrayBuffer <- readBody resp ;;
              ret (toBase64 arrayBuffer))
           (fun e =>
              if isAbort e
              then throw (Error ("Timed out downloading " +:+ label +:+ " from " +:+ normalized))
              else throw (Error ("Could not download " +:+ label +:+ " from " +:+ normalized
                                 +:+ ": " +:+ message e))))
        (emit EvClearTimeout)
  end.

(** ** The upstream dispatcher: index.js lines 90-132 *)

Definition kycBaseUrl (w : World) : Completion string :=
  let base := Js.dropTrailingSlash (Js.trim (envOr w "KYC_API_URL" "")) in
  if String.eqb base ""
  then Throw (Error "KYC_API_URL is required (example: http://127.0.0.1:7860 or https://xxxx.hf.space)")
  else Normal base.

(** The [data] of a dispatch: what [JSON.parse] gave, or [{ raw: text }]. *)
Inductive Data `{Platform} : Type :=
| Parsed (j : JSON)
| Raw (text : string).
Arguments Parsed {_} j.
Arguments Raw {_} text.

(** [{ ok, status, data }] *)
Record Upstream `{Platform} : Type := mkUpstream {
  up_ok : bool;
  up_status : Z;
  up_data : Data
}.
Arguments mkUpstream {_} up_ok up_status up_data.

Definition postJson `{Platform} (w : World) (url : string)
    (body : list (string * option string)) : Eff Upstream :=
  let timeoutMs := Js.parseInt (envOr w "KYC_ENGINE_TIMEOUT_MS" "60000") in
  let resolvedTimeoutMs := resolveTimeout timeoutMs 60000 in
  emit (EvSetTimeout resolvedTimeoutMs) ;;;
  finally
    (tryCatch
       (resp <- fetchFn w (mkRequest "POST" url jsonHeaders (Some body)) ;;
        text <- readBody resp ;;
        let parsed :=
          match JSON_parse text with
          | Some j => Parsed j
          | None => Raw text
          end in
        ret (mkUpstream (ok resp) (status resp) parsed))
       (fun e =>
          if isAbort e
          then throw (Error ("KYC engine timed out after " +:+ Js.ofInt resolvedTimeoutMs
                             +:+ "ms for " +:+ url))
          else throw (Error ("KYC engine fetch failed for " +:+ url +:+ ": " +:+ message e))))
    (emit EvClearTimeout).

(** ** The request handlers: index.js lines 147-235 *)

(** What the handler sends back: [res.status(code).json(...)]. *)
Inductive ReplyBody `{Platform} : Type :=
| ErrorBody (error : string)   (** [{ error: ... }] *)
| DataBody (data : Data).      (** the upstream's data *)
Arguments ErrorBody {_} error.
Arguments DataBody {_} data.

Record Reply `{Platform} : Type := mkReply { code : Z; sent : ReplyBody }.
Arguments mkReply {_} code sent.

(** [req.body || {}] *)
Definition bodyOrEmpty (b : option (gmap string Value)) : gmap string Value :=
  match b with
  | Some o => o
  | None => ∅
  end.

(** [input.k] *)
Definition field (input : gmap string Value) (k : string) : Value :=
  match input !! k with
  | Some v => v
  | None => VUndefined
  end.

(** [!image] for a variable that holds [null] or a string. *)
Definition falsy (image : option string) : bool := negb (truthy (ofNullable image)).

Definition dq : string := String (ascii_of_N 34) EmptyString.

Definition missingCnicImage : string :=
  "Missing CNIC image. Provide " +:+ dq +:+ "image" +:+ dq +:+ " (base64) or "
  +:+ dq +:+ "cnicFrontUrl" +:+ dq +:+ " (Cloudinary https URL).".

Definition missingFaceImages : string :=
  "Missing face images. Provide " +:+ dq +:+ "image1" +:+ dq +:+ " and "
  +:+ dq +:+ "image2" +:+ dq +:+ " (base64) or " +:+ dq +:+ "cnicImageUrl" +:+ dq
  +:+ " + " +:+ dq +:+ "selfieImageUrl" +:+ dq +:+ " (Cloudinary https URLs).".

Definition missingShopImage : string :=
  "Missing shop image. Provide " +:+ dq +:+ "image" +:+ dq +:+ " (base64) or "
  +:+ dq +:+ "shopImageUrl" +:+ dq +:+ " (Cloudinary https URL).".

(** [app.post('/verify-cnic', ...)] *)
Definition verify_cnic `{Platform} (w : World) (req_body : option (gmap string Value))
    : Eff Reply :=
  tryCatch
    (let input := bodyOrEmpty req_body in
     let image := normalizeBase64 (field input "image" ||| field input "cnicFrontBase64"
                                   ||| field input "cnicFrontImageBase64") in
     let imageUrl := field input "cnicFrontUrl" ||| field input "imageUrl"
                     ||| field input "cnicImageUrl" ||| VNull in
     image <- (if falsy image && truthy imageUrl
               then b <- downloadRemoteImageAsBase64 w imageUrl "CNIC image" ;;
                    ret (normalizeBase64 (VString b))
               else ret image) ;;
     if falsy image then ret (mkReply 400 (ErrorBody missingCnicImage))
     else
       base <- lift (kycBaseUrl w) ;;
       upstream <- postJson w (base +:+ "/verify-cnic")
                     [("image", image);
                      ("imageDataUri", asImageDataUri (ofNullable image))] ;;
       ret (mkReply (up_status upstream) (DataBody (up_data upstream))))
    (fun e => ret (mkReply 500 (ErrorBody (message e)))).

(** [app.post('/face-verify', ...)] *)
Definition face_verify `{Platform} (w : World) (req_body : option (gmap string Value))
    : Eff Reply :=
  tryCatch
    (let input := bodyOrEmpty req_body in
     let image1 := normalizeBase64 (field input "image1" ||| field input "img1") in
     let image2 := normalizeBase64 (field input "image2" ||| field input "img2") in
     let image1Url := field input "image1Url" ||| field input "cnicImageUrl" ||| VNull in
     let image2Url := field input "image2Url" ||| field input "selfieImageUrl" ||| VNull in
     image1 <- (if falsy image1 && truthy image1Url
                then b <- downloadRemoteImageAsBase64 w image1Url "CNIC image" ;;
                     ret (normalizeBase64 (VString b))
                else ret image1) ;;
     image2 <- (if falsy image2 && truthy image2Url
                then b <- downloadRemoteImageAsBase64 w image2Url "selfie image" ;;
                     ret (normalizeBase64 (VString b))
                else ret image2) ;;
     if falsy image1 || falsy image2 then ret (mkReply 400 (ErrorBody missingFaceImages))
     else
       base <- lift (kycBaseUrl w) ;;
       upstream <- postJson w (base +:+ "/face-verify")
                     [("image1", image1);
                      ("image2", image2);
                      ("image1DataUri", asImageDataUri (ofNullable image1));
                      ("image2DataUri", asImageDataUri (ofNullable image2))] ;;
       ret (mkReply (up_status upstream) (DataBody (up_data upstream))))
    (fun e => ret (mkReply 500 (ErrorBody (message e)))).

(** [app.post('/shop-verify', ...)] *)
Definition shop_verify `{Platform} (w : World) (req_body : option (gmap string Value))
    : Eff Reply :=
  tryCatch
    (let input := bodyOrEmpty req_body in
     let image := normalizeBase64 (field input "image" ||| field input "shopImage"
                                   ||| field input "shopImageBase64") in
     let imageUrl := field input "shopImageUrl" ||| field input "imageUrl" ||| VNull in
     image <- (if falsy image && truthy imageUrl
               then b <- downloadRemoteImageAsBase64 w imageUrl "shop image" ;;
                    ret (normalizeBase64 (VString b))
               else ret image) ;;
     if falsy image then ret (mkReply 400 (ErrorBody missingShopImage))
     else
       base <- lift (kycBaseUrl w) ;;
       upstream <- postJson w (base +:+ "/shop-verify")
                     [("image", image);
                      ("imageDataUri", asImageDataUri (ofNullable image))] ;;
       ret (mkReply (up_status upstream) (DataBody (up_data upstream))))
    (fun e => ret (mkReply 500 (ErrorBody (message e)))).

(** ** A reference platform

    Executable versions of the library functions, on which the handlers run
    on concrete requests.  The theorems below hold for every [Platform]. *)

Module Node.

(** The longest prefix without a character satisfying [p], and the rest. *)
Fixpoint break (p : ascii -> bool) (s : string) : string * string :=
  match s with
  | EmptyString => (EmptyString, EmptyString)
  | String c r =>
      if p c then (EmptyString, s)
      else let (a, b) := break p r in (String c a, b)
  end.

Fixpoint afterLast (c : ascii) (s : string) : string :=
  match s with
  | EmptyString => EmptyString
  | String a r =>
      if 0 <=? Js.indexOf r c then afterLast c r
      else if Ascii.eqb a c then r else s
  end.

Fixpoint all (p : ascii -> bool) (s : string) : bool :=
  match s with
  | EmptyString => true
  | String c r => p c && all p r
  end.

Definition isAlpha (c : ascii) : bool :=
  let n := N_of_ascii c in
  (((65 <=? n) && (n <=? 90)) || ((97 <=? n) && (n <=? 122)))%N.

Definition isSchemeChar (c : ascii) : bool :=
  isAlpha c || Js.isDigit c || Ascii.eqb c "+" || Ascii.eqb c "-" || Ascii.eqb c ".".

Definition isSlash (c : ascii) : bool := Ascii.eqb c "/" || Ascii.eqb c "\".

Definition endsAuthority (c : ascii) : bool :=
  isSlash c || Ascii.eqb c "?" || Ascii.eqb c "#".

Definition isHostChar (c : ascii) : bool :=
  isAlpha c || Js.isDigit c || Ascii.eqb c "-" || Ascii.eqb c "." || Ascii.eqb c "_".

Definition isSpecial (scheme : string) : bool :=
  String.eqb scheme "http" || String.eqb scheme "https" || String.eqb scheme "ws"
  || String.eqb scheme "wss" || String.eqb scheme "ftp".

(** [new URL(s)] on absolute URLs of the shape
    scheme://[userinfo@]host[:port][/path][?query][#fragment] with a host
    of letters, digits, hyphens, underscores and dots. *)
Definition parseURL (s : string) : option URL :=
  match break (Ascii.eqb ":") s with
  | (String c0 _ as scheme, String _ rest) =>
      if isAlpha c0 && all isSchemeChar scheme then
        let scheme := Js.toLowerCase scheme in
        if isSpecial scheme then
          let authority := fst (break endsAuthority (snd (break (fun c => negb (isSlash c)) rest))) in
          let host := fst (break (Ascii.eqb ":") (afterLast "@" authority)) in
          if negb (String.eqb host "") && all isHostChar host
          then Some (mkURL (scheme +:+ ":") (Js.toLowerCase host))
          else None
        else if Js.startsWith rest "//" then
          let authority := fst (break endsAuthority (Js.drop 2 rest)) in
          let host := fst (break (Ascii.eqb ":") (afterLast "@" authority)) in
          if all isHostChar host then Some (mkURL (scheme +:+ ":") host) else None
        else Some (mkURL (scheme +:+ ":") "")
      else None
  | _ => None
  end.

(** JSON texts *)
#[warnings="-register-all"]
Inductive json : Type :=
| JNull
| JBool (b : bool)
| JNumber (lexeme : string)
| JString (chars : string)
| JArray (items : list json)
| JObject (members : list (string * json)).

Definition isJsonWs (c : ascii) : bool :=
  match N_of_ascii c with
  | 9%N | 10%N | 13%N | 32%N => true
  | _ => false
  end.

Fixpoint skipWs (s : string) : string :=
  match s with
  | EmptyString => EmptyString
  | String c r => if isJsonWs c then skipWs r else s
  end.

Definition isHex (c : ascii) : bool :=
  let n := N_of_ascii c in
  (Js.isDigit c || ((65 <=? n) && (n <=? 70)) || ((97 <=? n) && (n <=? 102)))%N.

Definition isEscape (c : ascii) : bool :=
  match N_of_ascii c with
  | 34%N | 92%N | 47%N | 98%N | 102%N | 110%N | 114%N | 116%N => true
  | _ => false
  end.

(** The characters of a string literal after its opening quote, escapes
    checked and kept as written, and what follows the closing quote. *)
Fixpoint stringBody (s : string) : option (string * string) :=
  match s with
  | EmptyString => None
  | String c r =>
      if (N_of_ascii c =? 34)%N then Some (EmptyString, r)
      else if (N_of_ascii c <? 32)%N then None
      else if (N_of_ascii c =? 92)%N then
        match r with
        | String "u" (String h1 (String h2 (String h3 (String h4 r')))) =>
            if isHex h1 && isHex h2 && isHex h3 && isHex h4 then
              match stringBody r' with
              | Some (t, rest) =>
                  Some (String c (String "u" (String h1 (String h2 (String h3 (String h4 t))))), rest)
              | None => None
              end
            else None
        | String e r' =>
            if isEscape e then
              match stringBody r' with
              | Some (t, rest) => Some (String c (String e t), rest)
              | None => None
              end
            else None
        | EmptyString => None
        end
      else
        match stringBody r with
        | Some (t, rest) => Some (String c t, rest)
        | None => None
        end
  end.

Definition digitRun (s : string) : string * string :=
  break (fun c => negb (Js.isDigit c)) s.

(** A JSON number: an optional minus sign, an integer part without a
    leading zero, an optional fraction and an optional exponent. *)
Definition numberLexeme (s : string) : option (string * string) :=
  let (sign, s1) := match s with String "-" r => ("-", r) | _ => (EmptyString, s) end in
  let (int, s2) := digitRun s1 in
  if String.eqb int "" || (Js.startsWith int "0" && negb (String.eqb int "0")) then None
  else
    match (match s2 with
           | String "." r =>
               let (f, r') := digitRun r in
               if String.eqb f "" then None else Some ("." +:+ f, r')
           | _ => Some (EmptyString, s2)
           end) with
    | None => None
    | Some (frac, s3) =>
        match s3 with
        | String e r =>
            if Ascii.eqb e "e" || Ascii.eqb e "E" then
              let (sg, r1) := match r with
                              | String "+" r0 => ("+", r0)
                              | String "-" r0 => ("-", r0)
                              | _ => (EmptyString, r)
                              end in
              let (d, r2) := digitRun r1 in
              if String.eqb d "" then None
              else Some (sign +:+ int +:+ frac +:+ String e sg +:+ d, r2)
            else Some (sign +:+ int +:+ frac, s3)
        | EmptyString => Some (sign +:+ int +:+ frac, s3)
        end
    end.

Fixpoint value (fuel : nat) (s : string) : option (json * string) :=
  match fuel with
  | O => None
  | S fuel' =>
      match s with
      | String "{" r =>
          match skipWs r with
          | String "}" r' => Some (JObject [], r')
          | r' => option_map (fun p => (JObject (fst p), snd p)) (members fuel' r')
          end
      | String "[" r =>
          match skipWs r with
          | String "]" r' => Some (JArray [], r')
          | r' => option_map (fun p => (JArray (fst p), snd p)) (items fuel' r')
          end
      | String c r =>
          if (N_of_ascii c =? 34)%N
          then option_map (fun p => (JString (fst p), snd p)) (stringBody r)
          else if Js.startsWith s "true" then Some (JBool true, Js.drop 4 s)
          else if Js.startsWith s "false" then Some (JBool false, Js.drop 5 s)
          else if Js.startsWith s "null" then Some (JNull, Js.drop 4 s)
          else option_map (fun p => (JNumber (fst p), snd p)) (numberLexeme s)
      | EmptyString => None
      end
  end
with items (fuel : nat) (s : string) : option (list json * string) :=
  match fuel with
  | O => None
  | S fuel' =>
      match value fuel' (skipWs s) with
      | Some (v, r) =>
          match skipWs r with
          | String "]" r' => Some ([v], r')
          | String "," r' =>
              option_map (fun p => (v :: fst p, snd p)) (items fuel' r')
          | _ => None
          end
      | None => None
      end
  end
with members (fuel : nat) (s : string) : option (list (string * json) * string) :=
  match fuel with
  | O => None
  | S fuel' =>
      match skipWs s with
      | String q r =>
          if (N_of_ascii q =? 34)%N then
            match stringBody r with
            | Some (k, r1) =>
                match skipWs r1 with
                | String ":" r2 =>
                    match value fuel' (skipWs r2) with
                    | Some (v, r3) =>
                        match skipWs r3 with
                        | String "}" r' => Some ([(k, v)], r')
                        | String "," r' =>
                            option_map (fun p => ((k, v) :: fst p, snd p)) (members fuel' r')
                        | _ => None
                        end
                    | None => None
                    end
                | _ => None
                end
            | None => None
            end
          else None
      | EmptyString => None
      end
  end.

(** [JSON.parse(s)] *)
Definition parseJSON (s : string) : option json :=
  match value (S (String.length s)) (skipWs s) with
  | Some (v, rest) => if String.eqb (skipWs rest) "" then Some v else None
  | None => None
  end.

Definition alphabet : string :=
  "ABCDEFGHIJKLMNOPQRSTUVWXYZabcdefghijklmnopqrstuvwxyz0123456789+/".

Definition sextet (n : N) : ascii :=
  match String.get (N.to_nat (n mod 64)) alphabet with
  | Some c => c
  | None => "="%char
  end.

(** RFC 4648 base64 with padding. *)
Fixpoint base64 (bytes : string) : string :=
  match bytes with
  | EmptyString => EmptyString
  | String a r1 =>
      let x := N_of_ascii a in
      match r1 with
      | EmptyString =>
          String (sextet (x / 4)) (String (sextet (x * 16)) "==")
      | String b r2 =>
          let y := N_of_ascii b in
          match r2 with
          | EmptyString =>
              String (sextet (x / 4)) (String (sextet (x * 16 + y / 16))
                (String (sextet (y * 4)) "="))
          | String c r3 =>
              let z := N_of_ascii c in
              String (sextet (x / 4)) (String (sextet (x * 16 + y / 16))
                (String (sextet (y * 4 + z / 64)) (String (sextet z) (base64 r3))))
          end
      end
  end%N.

#[export] Instance platform : Platform := {
  URL_parse := parseURL;
  JSON := json;
  JSON_parse := parseJSON;
  toBase64 := base64
}.

End Node.

(** ** Scenarios: concrete worlds and requests *)

Module Scenario.
Import Node.

Definition kycEnv : gmap string string :=
  {[ "KYC_API_URL" := "http://127.0.0.1:7860/" ]}.

(** Every GET yields the image bytes [img]; every POST yields [up]. *)
Definition serving (img : string) (up : HttpResponse) : World :=
  mkWorld kycEnv
    (fun _ req =>
       if String.eqb (method req) "GET"
       then Responds (mkResponse 200 (BodyOk img))
       else Responds up).

(** No call completes before its timer fires. *)
Definition stalling : World := mkWorld kycEnv (fun _ _ => Stalls).



Definition notJson : HttpResponse := mkResponse 502 (BodyOk "not json").

Definition okJson : HttpResponse := mkResponse 200 (BodyOk "{}").

Definition inlineRequest : option (gmap string Value) :=
  Some {[ "image" := VString "iVBORw0KGgo=" ]}.

Definition httpUrlRequest : option (gmap string Value) :=
  Some {[ "cnicFrontUrl" := VString "http://res.cloudinary.com/x.jpg" ]}.

Definition remoteRequest : option (gmap string Value) :=
  Some {[ "cnicFrontUrl" := VString "https://res.cloudinary.com/demo/x.jpg" ]}.

Definition emptyRequest : option (gmap string Value) := Some ∅.

End Scenario.

(** ** Specification vocabulary *)

(** [c] occurs in [s]. *)
Definition contains (s : string) (c : ascii) : Prop :=
  exists a b, s = a +:+ String c b.

(** The allow-list as the specification words it: the host is a trusted
    domain [d] or a subdomain of it. *)
Definition trustedOrSubdomain (d host : string) : Prop :=
  host = d \/ exists sub, host = sub +:+ "." +:+ d.

(** The guard succeeds exactly on the https URLs whose host, lower-cased,
    is [d] or a subdomain of [d]. *)
Definition guardAccepts `{Platform} (d : string) : Prop :=
  forall u,
    assertAllowedRemoteUrl u = Normal tt <->
    exists uri, URL_parse u = Some uri /\ protocol uri = "https:" /\
                trustedOrSubdomain d (Js.toLowerCase (hostname uri)).

(** The host set of the code: [res.cloudinary.com], and every host ending
    in [.cloudinary.com]. *)
Definition inAllowList (host : string) : Prop :=
  host = "res.cloudinary.com" \/ exists sub, host = sub +:+ ".cloudinary.com".

(** All the suffixes of a string, the longest first. *)
Fixpoint suffixes (s : string) : list string :=
  match s with
  | EmptyString => [EmptyString]
  | String _ r => s :: suffixes r
  end.

(** The three endpoints of the gateway. *)
Inductive Endpoint : Type := VerifyCnic | FaceVerify | ShopVerify.

Definition handler `{Platform} (ep : Endpoint) :
    World -> option (gmap string Value) -> Eff Reply :=
  match ep with
  | VerifyCnic => verify_cnic
  | FaceVerify => face_verify
  | ShopVerify => shop_verify
  end.

(** The first image slot of an endpoint: the inline field it reads, after
    the aliases are tried in order. *)
Definition slotInline (ep : Endpoint) (input : gmap string Value) : Value :=
  match ep with
  | VerifyCnic => field input "image" ||| field input "cnicFrontBase64"
                  ||| field input "cnicFrontImageBase64"
  | FaceVerify => field input "image1" ||| field input "img1"
  | ShopVerify => field input "image" ||| field input "shopImage"
                  ||| field input "shopImageBase64"
  end.

(** Its remote URL field. *)
Definition slotUrl (ep : Endpoint) (input : gmap string Value) : Value :=
  match ep with
  | VerifyCnic => field input "cnicFrontUrl" ||| field input "imageUrl"
                  ||| field input "cnicImageUrl" ||| VNull
  | FaceVerify => field input "image1Url" ||| field input "cnicImageUrl" ||| VNull
  | ShopVerify => field input "shopImageUrl" ||| field input "imageUrl" ||| VNull
  end.

(** Its label in the error messages. *)
Definition slotLabel (ep : Endpoint) : string :=
  match ep with
  | VerifyCnic => "CNIC image"
  | FaceVerify => "CNIC image"
  | ShopVerify => "shop image"
  end.

(** The second slot of the face-verify endpoint. *)
Definition selfieInline (input : gmap string Value) : Value :=
  field input "image2" ||| field input "img2".

Definition selfieUrl (input : gmap string Value) : Value :=
  field input "image2Url" ||| field input "selfieImageUrl" ||| VNull.

(** The message of the 400 reply of an endpoint. *)
Definition missingMessage (ep : Endpoint) : string :=
  match ep with
  | VerifyCnic => missingCnicImage
  | FaceVerify => missingFaceImages
  | ShopVerify => missingShopImage
  end.

(** The path of the upstream engine an endpoint posts to. *)
Definition upstreamPath (ep : Endpoint) : string :=
  match ep with
  | VerifyCnic => "/verify-cnic"
  | FaceVerify => "/face-verify"
  | ShopVerify => "/shop-verify"
  end.

(** The step every handler repeats for a slot:
    [if (!image && imageUrl) image = normalizeBase64(await download(imageUrl, label))]. *)
Definition resolveSlot `{Platform} (w : World) (image : option string)
    (imageUrl : Value) (label : string) : Eff (option string) :=
  if falsy image && truthy imageUrl
  then b <- downloadRemoteImageAsBase64 w imageUrl label ;;
       ret (normalizeBase64 (VString b))
  else ret image.

(** The tail every handler ends with: post the payload and relay the answer. *)
Definition relay `{Platform} (w : World) (path : string)
    (fields : list (string * option string)) : Eff Reply :=
  base <- lift (kycBaseUrl w) ;;
  upstream <- postJson w (base +:+ path) fields ;;
  ret (mkReply (up_status upstream) (DataBody (up_data upstream))).

(** [catch (e) { return res.status(500).json({ error: e.message }) }] *)
Definition onError `{Platform} (e : JsError) : Eff Reply :=
  ret (mkReply 500 (ErrorBody (message e))).

(** The object an endpoint posts for one image, and for a pair. *)
Definition imageFields (image : option string) : list (string * option string) :=
  [("image", image); ("imageDataUri", asImageDataUri (ofNullable image))].

Definition pairFields (image1 image2 : option string) : list (string * option string) :=
  [("image1", image1); ("image2", image2);
   ("image1DataUri", asImageDataUri (ofNullable image1));
   ("image2DataUri", asImageDataUri (ofNullable image2))].

(** The resolution phase of a handler: every slot in turn; the list holds
    what each slot resolved to. *)
Definition resolveImages `{Platform} (ep : Endpoint) (w : World)
    (input : gmap string Value) : Eff (list (option string)) :=
  match ep with
  | FaceVerify =>
      image1 <- resolveSlot w (normalizeBase64 (slotInline ep input))
                  (slotUrl ep input) (slotLabel ep) ;;
      image2 <- resolveSlot w (normalizeBase64 (selfieInline input))
                  (selfieUrl input) "selfie image" ;;
      ret [image1; image2]
  | _ =>
      image <- resolveSlot w (normalizeBase64 (slotInline ep input))
                 (slotUrl ep input) (slotLabel ep) ;;
      ret [image]
  end.

Definition fieldsOf (images : list (option string)) : list (string * option string) :=
  match images with
  | [image] => imageFields image
  | [image1; image2] => pairFields image1 image2
  | _ => []
  end.

(** The error with which a URL value is refused before any network call:
    a missing URL, or a violation of the allow-list. *)
Definition violation `{Platform} (v : Value) (label : string) : option JsError :=
  match normalizeRemoteUrl v with
  | None => Some (Error ("Missing " +:+ label +:+ " URL"))
  | Some normalized =>
      match assertAllowedRemoteUrl normalized with
      | Throw e => Some e
      | Normal _ => None
      end
  end.

(** The request of the image download. *)
Definition getRequest (normalized : string) : Request :=
  mkRequest "GET" normalized downloadHeaders None.

(** The request of the upstream dispatch. *)
Definition postRequest (url : string) (fields : list (string * option string)) : Request :=
  mkRequest "POST" url jsonHeaders (Some fields).

(** The timer delays the two network calls use. *)
Definition downloadTimeoutMs (w : World) : Z :=
  resolveTimeout (Js.parseInt (envOr w "HTTP_DOWNLOAD_TIMEOUT_MS" "45000")) 45000.

Definition engineTimeoutMs (w : World) : Z :=
  resolveTimeout (Js.parseInt (envOr w "KYC_ENGINE_TIMEOUT_MS" "60000")) 60000.

(** The outcome of the download once the guard has accepted the URL, by
    what the network does. *)
Definition downloadOutcome `{Platform} (label n : string) (reply : NetReply)
    : Completion string * list Event :=
  let timedOut := Error ("Timed out downloading " +:+ label +:+ " from " +:+ n) in
  let failed e :=
    if isAbort e then timedOut
    else Error ("Could not download " +:+ label +:+ " from " +:+ n +:+ ": " +:+ message e) in
  match reply with
  | Stalls => (Throw timedOut, [EvAbort; EvClearTimeout])
  | Fails e => (Throw (failed e), [EvClearTimeout])
  | Responds r =>
      if ok r then
        match payload r with
        | BodyOk content => (Normal (toBase64 content), [EvClearTimeout])
        | BodyFail e => (Throw (failed e), [EvClearTimeout])
        | BodyStalled => (Throw timedOut, [EvAbort; EvClearTimeout])
        end
      else
        let http body :=
          failed (Error ("HTTP " +:+ Js.ofInt (status r) +:+ " while downloading "
                         +:+ label +:+ ": " +:+ body)) in
        match payload r with
        | BodyOk content => (Throw (http content), [EvClearTimeout])
        | BodyFail _ => (Throw (http ""), [EvClearTimeout])
        | BodyStalled => (Throw (http ""), [EvAbort; EvClearTimeout])
        end
  end.

(** [JSON.parse(text)], or [{ raw: text }] when it throws. *)
Definition parsedOrRaw `{Platform} (text : string) : Data :=
  match JSON_parse text with
  | Some j => Parsed j
  | None => Raw text
  end.

(** The outcome of a dispatch, by what the network does. *)
Definition postOutcome `{Platform} (w : World) (url : string) (reply : NetReply)
    : Completion Upstream * list Event :=
  let timedOut := Error ("KYC engine timed out after " +:+ Js.ofInt (engineTimeoutMs w)
                         +:+ "ms for " +:+ url) in
  let failed e :=
    if isAbort e then timedOut
    else Error ("KYC engine fetch failed for " +:+ url +:+ ": " +:+ message e) in
  match reply with
  | Stalls => (Throw timedOut, [EvAbort; EvClearTimeout])
  | Fails e => (Throw (failed e), [EvClearTimeout])
  | Responds r =>
      match payload r with
      | BodyOk text =>
          (Normal (mkUpstream (ok r) (status r) (parsedOrRaw text)), [EvClearTimeout])
      | BodyFail e => (Throw (failed e), [EvClearTimeout])
      | BodyStalled => (Throw timedOut, [EvAbort; EvClearTimeout])
      end
  end.

(** A call of [fetch] recorded in a trace is either a POST or a GET of a URL
    that the guard accepts. *)
Definition guarded `{Platform} (ev : Event) : Prop :=
  match ev with
  | EvFetch req =>
      method req = "POST" \/
      (method req = "GET" /\ assertAllowedRemoteUrl (url req) = Normal tt)
  | _ => True
  end.

(** No upstream dispatch is recorded. *)
Definition notPost (ev : Event) : Prop :=
  match ev with
  | EvFetch req => method req = "GET"
  | _ => True
  end.

(** A computation only appends to the trace, and what it appends
    satisfies [P]. *)
Definition appends {A} (P : Event -> Prop) (m : Eff A) : Prop :=
  forall tr, exists evs, snd (m tr) = tr ++ evs /\ Forall P evs.

(** A status of the 400 class. *)
Definition clientError (c : Z) : Prop := 400 <= c <= 499.

(** ** The diagnostic endpoint and the listen port: index.js lines 138-145, 237 *)

(** [Boolean(process.env.KYC_API_URL && String(process.env.KYC_API_URL).trim().length > 0)] *)
Definition hasKycApiUrl (w : World) : bool :=
  match env w !! "KYC_API_URL" with
  | Some v =>
      if String.eqb v "" then false
      else 0 <? Z.of_nat (String.length (Js.trim v))
  | None => false
  end.

(** [process.env.KYC_API_URL || null] *)
Definition kycApiUrl (w : World) : option string :=
  match env w !! "KYC_API_URL" with
  | Some v => if String.eqb v "" then None else Some v
  | None => None
  end.

(** The object sent by [app.get('/__version', ...)]; [now] is
    [new Date().toISOString()]. *)
Record VersionInfo : Type := mkVersion {
  v_service : string;
  v_time : string;
  v_hasKycApiUrl : bool;
  v_kycApiUrl : option string
}.

Definition version (now : string) (w : World) : VersionInfo :=
  mkVersion "kyc-mini-backend" now (hasKycApiUrl w) (kycApiUrl w).

(** [Number.parseInt(process.env.PORT || '8085', 10)]; [None] is NaN. *)
Definition port (w : World) : option Z := Js.parseInt (envOr w "PORT" "8085").

(** ** More vocabulary *)

(** Every character is white space. *)
Fixpoint allWhite (s : string) : bool :=
  match s with
  | EmptyString => true
  | String c r => Js.isWhite c && allWhite r
  end.

(** No character is white space. *)
Fixpoint noWhite (s : string) : bool :=
  match s with
  | EmptyString => true
  | String c r => negb (Js.isWhite c) && noWhite r
  end.

(** The prefix [asImageDataUri] puts before the payload. *)
Definition jpegPrefix : string := "data:image/jpeg;base64,".

(** Timers armed minus timers cleared. *)
Fixpoint timers (evs : list Event) : Z :=
  match evs with
  | [] => 0
  | EvSetTimeout _ :: r => timers r + 1
  | EvClearTimeout :: r => timers r - 1
  | _ :: r => timers r
  end.

(** The calls of [fetch] in a trace, in order. *)
Fixpoint fetches (evs : list Event) : list Request :=
  match evs with
  | [] => []
  | EvFetch req :: r => req :: fetches r
  | _ :: r => fetches r
  end.

(** A computation only appends to the trace, and the events it appends,
    taken together, satisfy [Q]. *)
Definition extends {A} (Q : list Event -> Prop) (m : Eff A) : Prop :=
  forall tr, exists evs, snd (m tr) = tr ++ evs /\ Q evs.

(** What is left of the trace of one network call after its timer is armed
    and [fetch] is called: the timer is cleared, after an abort if it fired. *)
Definition closing (evs : list Event) : Prop :=
  evs = [EvClearTimeout] \/ evs = [EvAbort; EvClearTimeout].

(** The reply of a handler to a dispatch outcome. *)
Definition replyOf `{Platform} (c : Completion Upstream) : Reply :=
  match c with
  | Normal up => mkReply (up_status up) (DataBody (up_data up))
  | Throw e => mkReply 500 (ErrorBody (message e))
  end.

(** What the inline fields of a request normalize to, slot by slot. *)
Definition inlineImages (ep : Endpoint) (input : gmap string Value) : list (option string) :=
  match ep with
  | FaceVerify => [normalizeBase64 (slotInline ep input);
                   normalizeBase64 (selfieInline input)]
  | _ => [normalizeBase64 (slotInline ep input)]
  end.

(** The field name an endpoint tries first for its first slot. *)
Definition primaryField (ep : Endpoint) : string :=
  match ep with
  | FaceVerify => "image1"
  | _ => "image"
  end.





(** What the network does with a dispatch made after the trace [tr]. *)
Definition dispatchReply (w : World) (tr : list Event) (url : string)
    (fields : list (string * option string)) : NetReply :=
  net w (tr ++ [EvSetTimeout (engineTimeoutMs w)]) (postRequest url fields).

(** The call rejects with [cause]: [fetch] itself, or the read of the body. *)
Definition rejectsWith (reply : NetReply) (cause : JsError) : Prop :=
  reply = Fails cause \/ exists r, reply = Responds r /\ payload r = BodyFail cause.

(** The timer fires before the call is over. *)
Definition timerFires (reply : NetReply) : Prop :=
  reply = Stalls \/ exists r, reply = Responds r /\ payload r = BodyStalled.

(** The messages of the dispatcher's two errors. *)
Definition engineTimedOut (w : World) (url : string) : JsError :=
  Error ("KYC engine timed out after " +:+ Js.ofInt (engineTimeoutMs w)
         +:+ "ms for " +:+ url).

Definition engineFetchFailed (url : string) (cause : JsError) : JsError :=
  Error ("KYC engine fetch failed for " +:+ url +:+ ": " +:+ message cause).

(** ** More scenarios *)

Module Worlds.

(** Every call of [fetch] rejects with [e]. *)
Definition failing (e : JsError) : World :=
  mkWorld Scenario.kycEnv (fun _ _ => Fails e).

(** Every call is answered with [r]. *)
Definition answering (r : HttpResponse) : World :=
  mkWorld Scenario.kycEnv (fun _ _ => Responds r).

(** [w] with the environment variable [k] set to [v]. *)
Definition setenv (k v : string) (w : World) : World :=
  mkWorld (<[ k := v ]> (env w)) (net w).

(** [w] with the environment variable [k] unset. *)
Definition unsetenv (k : string) (w : World) : World :=
  mkWorld (delete k (env w)) (net w).

Definition demoUrl : string := "https://res.cloudinary.com/demo/x.jpg".

(** An inline image together with a URL that the guard would refuse. *)
Definition inlineAndBadUrl : option (gmap string Value) :=
  Some {[ "image" := VString "iVBORw0KGgo=";
          "cnicFrontUrl" := VString "http://evil.example/x.jpg" ]}.

(** A blank first-choice field beside an alias that holds an image. *)
Definition blankPrimary : option (gmap string Value) :=
  Some {[ "image" := VString " "; "cnicFrontBase64" := VString "iVBORw0KGgo=" ]}.

(** No [KYC_API_URL]. *)
Definition unconfigured : World :=
  unsetenv "KYC_API_URL" (Scenario.serving "img" Scenario.okJson).

End Worlds.

(** * Properties *)

(** ** Strings *)

Example trim_example : Js.trim "  data:x,y  " = "data:x,y".
Proof. reflexivity. Qed.

Example stripWhite_example : Js.stripWhite "https://res. cloudinary.com /x" = "https://res.cloudinary.com/x".
Proof. reflexivity. Qed.

Example parseInt_examples :
  Js.parseInt "45000" = Some 45000 /\ Js.parseInt " 30000ms" = Some 30000
  /\ Js.parseInt "-5" = Some (-5) /\ Js.parseInt "soon" = None.
Proof. repeat split. Qed.

Example slice_example : Js.slice "data:x,y" (Js.indexOf "data:x,y" "," + 1) = "y".
Proof. reflexivity. Qed.

Example parseURL_examples :
  Node.parseURL "HTTPS://User@Res.Cloudinary.com:443/a.jpg?b#c"
    = Some (mkURL "https:" "res.cloudinary.com")
  /\ Node.parseURL "true" = None.
Proof. split; reflexivity. Qed.

Example base64_example : Node.base64 "img" = "aW1n".
Proof. reflexivity. Qed.

Lemma startsWith_app p t : Js.startsWith (p +:+ t) p = true.
Proof.
  induction p as [|a p IH]; simpl; [reflexivity|].
  rewrite Ascii.eqb_refl. exact IH.
Qed.

Lemma startsWith_inv s : forall p, Js.startsWith s p = true -> exists t, s = p +:+ t.
Proof.
  induction s as [|b s IH]; intros [|a p] Hp; simpl in Hp.
  - exists EmptyString. reflexivity.
  - discriminate.
  - exists (String b s). reflexivity.
  - apply andb_true_iff in Hp as [Hab Hp].
    apply Ascii.eqb_eq in Hab. subst b.
    destruct (IH _ Hp) as [t ->]. exists t. reflexivity.
Qed.

Lemma append_nil_l s : "" +:+ s = s.
Proof. reflexivity. Qed.

Lemma append_cons a s t : String a s +:+ t = String a (s +:+ t).
Proof. reflexivity. Qed.

Lemma endsWith_app pre p : Js.endsWith (pre +:+ p) p = true.
Proof.
  induction pre as [|a pre IH].
  - rewrite append_nil_l. destruct p; [reflexivity|].
    cbn [Js.endsWith]. rewrite String.eqb_refl. reflexivity.
  - rewrite append_cons. cbn [Js.endsWith]. rewrite IH. apply orb_true_r.
Qed.

Lemma endsWith_inv s p : Js.endsWith s p = true -> exists pre, s = pre +:+ p.
Proof.
  induction s as [|a s IH]; cbn [Js.endsWith]; intros Hp.
  - apply String.eqb_eq in Hp. subst p. exists EmptyString. reflexivity.
  - apply orb_true_iff in Hp as [Hp|Hp].
    + apply String.eqb_eq in Hp. subst p. exists EmptyString. reflexivity.
    + destruct (IH Hp) as [pre ->]. exists (String a pre). reflexivity.
Qed.

Lemma suffixes_app pre t : In t (suffixes (pre +:+ t)).
Proof.
  induction pre as [|a pre IH]; simpl.
  - destruct t; simpl; auto.
  - right. exact IH.
Qed.



Lemma hostAllowed_iff host : hostAllowed host = true <-> inAllowList host.
Proof.
  unfold hostAllowed, inAllowList. rewrite orb_true_iff, String.eqb_eq.
  split; (intros [Hh|Hh]; [left; exact Hh|right]).
  - apply endsWith_inv. exact Hh.
  - destruct Hh as [sub ->]. apply endsWith_app.
Qed.

Lemma append_assoc a b c : (a +:+ b) +:+ c = a +:+ b +:+ c.
Proof.
  induction a as [|x a IH]; [reflexivity|].
  rewrite !append_cons, IH. reflexivity.
Qed.

Lemma length_append a b :
  String.length (a +:+ b) = (String.length a + String.length b)%nat.
Proof.
  induction a as [|x a IH]; [reflexivity|].
  rewrite append_cons. simpl. rewrite IH. reflexivity.
Qed.

Lemma drop_append a b : Js.drop (String.length a) (a +:+ b) = b.
Proof.
  induction a as [|x a IH]; [destruct b; reflexivity|].
  rewrite append_cons. simpl. exact IH.
Qed.

Lemma contains_cons x s c : contains s c -> contains (String x s) c.
Proof.
  intros (a & b & ->). exists (String x a), b. reflexivity.
Qed.

Lemma contains_append w1 s w2 c : contains s c -> contains (w1 +:+ s +:+ w2) c.
Proof.
  intros (a & b & ->). exists (w1 +:+ a), (b +:+ w2).
  rewrite !append_assoc, append_cons. reflexivity.
Qed.

Lemma indexOf_contains s c : contains s c -> 0 <= Js.indexOf s c.
Proof.
  intros (a & b & ->). induction a as [|x a IH].
  - rewrite append_nil_l. simpl. rewrite Ascii.eqb_refl. lia.
  - rewrite append_cons. simpl.
    destruct (Ascii.eqb x c); [lia|].
    destruct (Z.ltb_spec (Js.indexOf (a +:+ String c b) c) 0); lia.
Qed.

Lemma contains_indexOf s c : 0 <= Js.indexOf s c -> contains s c.
Proof.
  induction s as [|x s IH]; simpl; [lia|].
  destruct (Ascii.eqb_spec x c) as [->|_].
  - intros _. exists EmptyString, s. reflexivity.
  - destruct (Z.ltb_spec (Js.indexOf s c) 0); [lia|].
    intros _. apply contains_cons, IH. lia.
Qed.

Lemma indexOf_absent s c : ~ contains s c -> (0 <=? Js.indexOf s c) = false.
Proof.
  intros Hn. apply Z.leb_gt.
  destruct (Z.lt_ge_cases (Js.indexOf s c) 0) as [Hlt|Hge]; [exact Hlt|].
  destruct Hn. apply contains_indexOf. exact Hge.
Qed.

Lemma indexOf_first pre post c :
  ~ contains pre c ->
  Js.indexOf (pre +:+ String c post) c = Z.of_nat (String.length pre).
Proof.
  induction pre as [|x pre IH]; intros Hn.
  - rewrite append_nil_l. simpl. rewrite Ascii.eqb_refl. reflexivity.
  - rewrite append_cons. cbn [Js.indexOf String.length].
    destruct (Ascii.eqb_spec x c) as [->|_].
    + destruct Hn. exists EmptyString, pre. reflexivity.
    + rewrite IH by (intros Hc; apply Hn, contains_cons, Hc).
      destruct (Z.ltb_spec (Z.of_nat (String.length pre)) 0); lia.
Qed.

Lemma slice_after pre post c :
  Js.slice (pre +:+ String c post) (Z.of_nat (String.length pre) + 1) = post.
Proof.
  unfold Js.slice.
  destruct (Z.ltb_spec (Z.of_nat (String.length pre) + 1) 0); [lia|].
  rewrite length_append. cbn [String.length].
  rewrite Z.min_l by lia.
  replace (Z.to_nat (Z.of_nat (String.length pre) + 1))
    with (String.length (pre +:+ String c EmptyString))
    by (rewrite length_append; simpl; lia).
  replace (pre +:+ String c post) with ((pre +:+ String c EmptyString) +:+ post)
    by (rewrite append_assoc; reflexivity).
  apply drop_append.
Qed.

Lemma trimStart_suffix s : exists w, s = w +:+ Js.trimStart s.
Proof.
  induction s as [|x s [w IH]]; simpl.
  - exists EmptyString. reflexivity.
  - destruct (Js.isWhite x).
    + exists (String x w). rewrite append_cons, <- IH. reflexivity.
    + exists EmptyString. reflexivity.
Qed.

Lemma trimEnd_prefix s : exists w, s = Js.trimEnd s +:+ w.
Proof.
  induction s as [|x s [w IH]]; simpl.
  - exists EmptyString. reflexivity.
  - destruct (Js.trimEnd s) as [|y t] eqn:Ht.
    + destruct (Js.isWhite x).
      * exists (String x s). reflexivity.
      * exists s. reflexivity.
    + exists w. rewrite append_cons, <- IH. reflexivity.
Qed.

Lemma contains_trim s c : contains (Js.trim s) c -> contains s c.
Proof.
  unfold Js.trim. intros Hc.
  destruct (trimStart_suffix s) as [w1 H1].
  destruct (trimEnd_prefix (Js.trimStart s)) as [w2 H2].
  rewrite H1, H2. apply contains_append. exact Hc.
Qed.

Lemma trim_nonwhite x s : Js.isWhite x = false -> exists t, Js.trim (String x s) = String x t.
Proof.
  intros Hx. unfold Js.trim. cbn [Js.trimStart]. rewrite Hx. cbn [Js.trimEnd].
  destruct (Js.trimEnd s) as [|y t].
  - rewrite Hx. exists EmptyString. reflexivity.
  - exists (String y t). reflexivity.
Qed.

(** ** The base64 normalizer *)

Lemma normalizeBase64_string s :
  normalizeBase64 (VString s) =
    if String.eqb (Js.trim s) "" then None
    else if Js.startsWith (Js.trim s) "data:" && (0 <=? Js.indexOf (Js.trim s) ",")
         then Some (Js.slice (Js.trim s) (Js.indexOf (Js.trim s) "," + 1))
         else Some (Js.trim s).
Proof.
  unfold normalizeBase64. cbn [truthy toString].
  destruct s as [|x s]; reflexivity.
Qed.

Lemma normalizeBase64_strip s pre post :
  Js.startsWith (Js.trim s) "data:" = true ->
  Js.trim s = pre +:+ "," +:+ post ->
  ~ contains pre "," ->
  normalizeBase64 (VString s) = Some post.
Proof.
  intros Hd Hs Hn. rewrite normalizeBase64_string, Hd.
  rewrite Hs.
  change (pre +:+ "," +:+ post) with (pre +:+ String "," post).
  rewrite (indexOf_first pre post "," Hn), slice_after.
  destruct (Z.leb_spec 0 (Z.of_nat (String.length pre))); [|lia].
  destruct pre; reflexivity.
Qed.

Lemma normalizeBase64_keep s :
  Js.trim s <> "" ->
  Js.startsWith (Js.trim s) "data:" = false \/ ~ contains (Js.trim s) "," ->
  normalizeBase64 (VString s) = Some (Js.trim s).
Proof.
  intros Hne Hk. rewrite normalizeBase64_string.
  apply String.eqb_neq in Hne. rewrite Hne.
  destruct Hk as [Hk|Hk].
  - rewrite Hk. reflexivity.
  - rewrite (indexOf_absent _ _ Hk), andb_false_r. reflexivity.
Qed.

(** C4 (as amended): [normalizeBase64] returns null exactly when its input
    is null or trims to the empty string; when the trimmed input begins with
    the data-URI prefix and has a comma, it returns what follows the first
    comma of the trimmed input; every other non-empty input gives the trimmed
    input unchanged. *)
Theorem normalizeBase64_contract (input : option string) :
  (normalizeBase64 (ofNullable input) = None <->
     input = None \/ exists s, input = Some s /\ Js.trim s = "")
  /\ (forall s pre post,
        input = Some s ->
        Js.startsWith (Js.trim s) "data:" = true ->
        Js.trim s = pre +:+ "," +:+ post ->
        ~ contains pre "," ->
        normalizeBase64 (ofNullable input) = Some post)
  /\ (forall s,
        input = Some s ->
        Js.trim s <> "" ->
        Js.startsWith (Js.trim s) "data:" = false \/ ~ contains (Js.trim s) "," ->
        normalizeBase64 (ofNullable input) = Some (Js.trim s)).
Proof.
  split; [|split].
  - destruct input as [s|]; cbn [ofNullable].
    + rewrite normalizeBase64_string.
      destruct (String.eqb_spec (Js.trim s) "") as [He|Hne].
      * split; [|reflexivity]. intros _. right. exists s. split; [reflexivity|exact He].
      * split.
        -- destruct (_ && _); discriminate.
        -- intros [Hn|(s' & Hs & Ht)]; [discriminate|].
           injection Hs as <-. contradiction.
    + split; [|reflexivity]. intros _. left. reflexivity.
  - intros s pre post -> Hd Hs Hn. apply (normalizeBase64_strip s pre post); assumption.
  - intros s -> Hne Hk. apply normalizeBase64_keep; assumption.
Qed.

(** C4, as stated, fails: an input that begins with the data-URI prefix and
    ends in white space does not give the substring after its first comma,
    because the input is trimmed before the prefix is looked for. *)
Lemma normalizeBase64_not_substring_of_input :
  ~ (forall s pre post,
       Js.startsWith s "data:" = true ->
       s = pre +:+ "," +:+ post ->
       ~ contains pre "," ->
       normalizeBase64 (VString s) = Some post).
Proof.
  intros Hclaim.
  specialize (Hclaim "data:image/png;base64,AAAA " "data:image/png;base64" "AAAA "
                eq_refl eq_refl).
  assert (Hn : ~ contains "data:image/png;base64" ",").
  { intros Hc. apply indexOf_contains in Hc. vm_compute in Hc. apply Hc. reflexivity. }
  specialize (Hclaim Hn). vm_compute in Hclaim. discriminate.
Qed.

(** C10: an input that begins with [data:] and has no comma is returned
    trimmed and otherwise unchanged. *)
Theorem normalizeBase64_prefix_without_comma (s : string) :
  Js.startsWith s "data:" = true ->
  ~ contains s "," ->
  normalizeBase64 (VString s) = Some (Js.trim s).
Proof.
  intros Hd Hn.
  destruct s as [|x s]; [discriminate|].
  cbn [Js.startsWith] in Hd. apply andb_true_iff in Hd as [Hx _].
  apply Ascii.eqb_eq in Hx. subst x.
  apply normalizeBase64_keep.
  - destruct (trim_nonwhite "d" s eq_refl) as [t ->]. discriminate.
  - right. intros Hc. apply Hn, contains_trim, Hc.
Qed.

Lemma normalizeBase64_prefix_without_comma_witness :
  normalizeBase64 (VString "  data:image/png;base64 ") = Some "data:image/png;base64"
  /\ normalizeBase64 (VString "data:no-comma-here") = Some (Js.trim "data:no-comma-here").
Proof.
  split; [reflexivity|].
  apply (normalizeBase64_prefix_without_comma "data:no-comma-here").
  - reflexivity.
  - intros Hc. apply indexOf_contains in Hc. vm_compute in Hc. apply Hc. reflexivity.
Defined.

(** ** The remote URL guard *)

Section Guard.
Context `{Platform}.

Lemma guard_unfold u :
  assertAllowedRemoteUrl u =
    match URL_parse u with
    | None => Throw InvalidUrl
    | Some uri =>
        if String.eqb (protocol uri) "https:"
        then if hostAllowed (Js.toLowerCase (hostname uri))
             then Normal tt
             else Throw (Error ("Remote URL host not allowed: "
                                +:+ Js.toLowerCase (hostname uri)))
        else Throw (Error ("Only https URLs are allowed: " +:+ u))
    end.
Proof.
  unfold assertAllowedRemoteUrl. destruct (URL_parse u) as [uri|]; [|reflexivity].
  destruct (String.eqb (protocol uri) "https:"); [|reflexivity].
  destruct (hostAllowed _); reflexivity.
Qed.

Lemma guard_normal_iff u :
  assertAllowedRemoteUrl u = Normal tt <->
  exists uri, URL_parse u = Some uri /\ protocol uri = "https:" /\
              hostAllowed (Js.toLowerCase (hostname uri)) = true.
Proof.
  rewrite guard_unfold. split.
  - destruct (URL_parse u) as [uri|]; [|discriminate].
    destruct (String.eqb_spec (protocol uri) "https:") as [Hp|]; [|discriminate].
    destruct (hostAllowed _) eqn:Hh; [|discriminate].
    intros _. exists uri. auto.
  - intros (uri & -> & Hp & Hh). apply String.eqb_eq in Hp. rewrite Hp, Hh. reflexivity.
Qed.

(** What [guardAccepts d] says about the host of one https URL. *)
Lemma guardAccepts_host d u uri :
  guardAccepts d ->
  URL_parse u = Some uri -> protocol uri = "https:" ->
  hostAllowed (Js.toLowerCase (hostname uri)) = true <->
  trustedOrSubdomain d (Js.toLowerCase (hostname uri)).
Proof.
  intros Hg Hu Hp. specialize (Hg u). rewrite guard_normal_iff in Hg. split.
  - intros Hh. destruct Hg as [Hg _].
    destruct Hg as (uri' & Hu' & _ & Ht); [exists uri; auto|].
    rewrite Hu in Hu'. injection Hu' as <-. exact Ht.
  - intros Ht. destruct Hg as [_ Hg].
    destruct Hg as (uri' & Hu' & _ & Hh); [exists uri; auto|].
    rewrite Hu in Hu'. injection Hu' as <-. exact Hh.
Qed.

(** C1 (as amended): the guard succeeds exactly on the strings that parse as
    a URL with scheme https whose host, lower-cased, is [res.cloudinary.com]
    or ends in [.cloudinary.com]; a string that does not parse raises the
    invalid-URL error, another scheme the disallowed-scheme error, and an
    https URL with another host the disallowed-host error. *)
Theorem assertAllowedRemoteUrl_outcomes (u : string) :
  (assertAllowedRemoteUrl u = Normal tt <->
     exists uri, URL_parse u = Some uri /\ protocol uri = "https:" /\
                 inAllowList (Js.toLowerCase (hostname uri)))
  /\ (URL_parse u = None -> assertAllowedRemoteUrl u = Throw InvalidUrl)
  /\ (forall uri, URL_parse u = Some uri -> protocol uri <> "https:" ->
        assertAllowedRemoteUrl u = Throw (Error ("Only https URLs are allowed: " +:+ u)))
  /\ (forall uri, URL_parse u = Some uri -> protocol uri = "https:" ->
        ~ inAllowList (Js.toLowerCase (hostname uri)) ->
        assertAllowedRemoteUrl u =
          Throw (Error ("Remote URL host not allowed: " +:+ Js.toLowerCase (hostname uri)))).
Proof.
  repeat split.
  - intros Hn. apply guard_normal_iff in Hn as (uri & Hu & Hp & Hh).
    exists uri. rewrite <- hostAllowed_iff. auto.
  - intros (uri & Hu & Hp & Hh). apply guard_normal_iff.
    exists uri. rewrite hostAllowed_iff. auto.
  - intros Hu. rewrite guard_unfold, Hu. reflexivity.
  - intros uri Hu Hp. rewrite guard_unfold, Hu.
    apply String.eqb_neq in Hp. rewrite Hp. reflexivity.
  - intros uri Hu Hp Hh. rewrite guard_unfold, Hu.
    apply String.eqb_eq in Hp. rewrite Hp.
    destruct (hostAllowed _) eqn:Ha; [|reflexivity].
    destruct Hh. apply hostAllowed_iff. exact Ha.
Qed.

(** C9: for an https URL the accepted hosts are exactly
    [res.cloudinary.com] and the hosts ending in [.cloudinary.com]; the apex
    [cloudinary.com] is not among them and is refused with the
    disallowed-host error. *)
Theorem allowList_exact (u : string) (uri : URL) :
  URL_parse u = Some uri ->
  protocol uri = "https:" ->
  (assertAllowedRemoteUrl u = Normal tt <-> inAllowList (Js.toLowerCase (hostname uri)))
  /\ ~ inAllowList "cloudinary.com"
  /\ (Js.toLowerCase (hostname uri) = "cloudinary.com" ->
      assertAllowedRemoteUrl u =
        Throw (Error "Remote URL host not allowed: cloudinary.com")).
Proof.
  intros Hu Hp. split; [|split].
  - rewrite guard_normal_iff, <- hostAllowed_iff. split.
    + intros (uri' & Hu' & _ & Hh). rewrite Hu in Hu'. injection Hu' as <-. exact Hh.
    + intros Hh. exists uri. auto.
  - rewrite <- hostAllowed_iff. discriminate.
  - intros Hh. rewrite guard_unfold, Hu, Hh.
    apply String.eqb_eq in Hp. rewrite Hp. reflexivity.
Qed.

End Guard.

Lemma allowList_exact_witness :
  (assertAllowedRemoteUrl (H := Node.platform) "https://cloudinary.com/x.jpg" = Normal tt <->
     inAllowList "cloudinary.com")
  /\ ~ inAllowList "cloudinary.com"
  /\ ("cloudinary.com" = "cloudinary.com" ->
      assertAllowedRemoteUrl (H := Node.platform) "https://cloudinary.com/x.jpg" =
        Throw (Error "Remote URL host not allowed: cloudinary.com")).
Proof.
  exact (allowList_exact (H := Node.platform) "https://cloudinary.com/x.jpg"
           (mkURL "https:" "cloudinary.com") eq_refl eq_refl).
Defined.

Lemma subdomain_of_res d :
  trustedOrSubdomain d "res.cloudinary.com" ->
  d = "res.cloudinary.com" \/ d = "cloudinary.com" \/ d = "com".
Proof.
  intros [Hd|[sub Hd]]; [left; symmetry; exact Hd|].
  pose proof (suffixes_app sub ("." +:+ d)) as Hin. rewrite <- Hd in Hin.
  simpl in Hin.
  repeat (destruct Hin as [Hin|Hin]; [try discriminate Hin|]); try contradiction;
    injection Hin as Hin; rewrite append_nil_l in Hin; subst d; auto.
Qed.

Lemma foo_not_under_res : ~ trustedOrSubdomain "res.cloudinary.com" "foo.cloudinary.com".
Proof.
  intros [Hd|[sub Hd]]; [discriminate|].
  pose proof (suffixes_app sub ("." +:+ "res.cloudinary.com")) as Hin. rewrite <- Hd in Hin.
  simpl in Hin.
  repeat (destruct Hin as [Hin|Hin]; [try discriminate Hin|]); contradiction.
Qed.

(** C1, as stated, fails: there is no trusted domain [d] for which the guard
    accepts exactly [d] and the subdomains of [d].  With
    [d = res.cloudinary.com] the accepted host [foo.cloudinary.com] is not
    covered; with [d = cloudinary.com] the apex itself is refused; with
    [d = com] the host [evil.com] is refused. *)
Lemma guard_is_not_domain_or_subdomain :
  ~ exists d, guardAccepts (H := Node.platform) d.
Proof.
  intros [d Hg].
  pose proof (guardAccepts_host d "https://res.cloudinary.com/x.jpg"
                (mkURL "https:" "res.cloudinary.com") Hg eq_refl eq_refl) as Hres.
  pose proof (guardAccepts_host d "https://foo.cloudinary.com/x.jpg"
                (mkURL "https:" "foo.cloudinary.com") Hg eq_refl eq_refl) as Hfoo.
  pose proof (guardAccepts_host d "https://cloudinary.com/x.jpg"
                (mkURL "https:" "cloudinary.com") Hg eq_refl eq_refl) as Hapex.
  pose proof (guardAccepts_host d "https://evil.com/x.jpg"
                (mkURL "https:" "evil.com") Hg eq_refl eq_refl) as Hevil.
  cbn [hostname Js.toLowerCase] in Hres, Hfoo, Hapex, Hevil.
  destruct Hres as [Hres _]. specialize (Hres eq_refl).
  apply subdomain_of_res in Hres as [->|[->| ->]].
  - destruct Hfoo as [Hfoo _]. apply foo_not_under_res, Hfoo. reflexivity.
  - destruct Hapex as [_ Hapex]. discriminate Hapex. left. reflexivity.
  - destruct Hevil as [_ Hevil]. discriminate Hevil. right. exists "evil". reflexivity.
Qed.

(** ** Traces *)

Section Appends.
Context {A B : Type} (P : Event -> Prop).

Lemma appends_ret (a : A) : appends P (ret a).
Proof. intros tr. exists []. rewrite app_nil_r. split; [reflexivity|constructor]. Qed.

Lemma appends_throw (e : JsError) : appends P (@throw A e).
Proof. intros tr. exists []. rewrite app_nil_r. split; [reflexivity|constructor]. Qed.

Lemma appends_lift (c : Completion A) : appends P (lift c).
Proof. intros tr. exists []. rewrite app_nil_r. split; [reflexivity|constructor]. Qed.

Lemma appends_emit ev : P ev -> appends P (emit ev).
Proof. intros Hev tr. exists [ev]. split; [reflexivity|]. constructor; [exact Hev|constructor]. Qed.

Lemma appends_bind (m : Eff A) (k : A -> Eff B) :
  appends P m -> (forall a, appends P (k a)) -> appends P (bind m k).
Proof.
  intros Hm Hk tr. unfold bind.
  destruct (Hm tr) as (evs & E & F).
  destruct (m tr) as [[a|e] tr']; cbn [snd] in E; subst tr'.
  - destruct (Hk a (tr ++ evs)) as (evs' & E' & F').
    exists (evs ++ evs'). rewrite E', app_assoc. split; [reflexivity|].
    apply Forall_app. split; assumption.
  - exists evs. split; [reflexivity|assumption].
Qed.

Lemma appends_tryCatch (m : Eff A) (h : JsError -> Eff A) :
  appends P m -> (forall e, appends P (h e)) -> appends P (tryCatch m h).
Proof.
  intros Hm Hh tr. unfold tryCatch.
  destruct (Hm tr) as (evs & E & F).
  destruct (m tr) as [[a|e] tr']; cbn [snd] in E; subst tr'.
  - exists evs. split; [reflexivity|assumption].
  - destruct (Hh e (tr ++ evs)) as (evs' & E' & F').
    exists (evs ++ evs'). rewrite E', app_assoc. split; [reflexivity|].
    apply Forall_app. split; assumption.
Qed.

Lemma appends_finally (m : Eff A) (f : Eff unit) :
  appends P m -> appends P f -> appends P (finally m f).
Proof.
  intros Hm Hf tr. unfold finally.
  destruct (Hm tr) as (evs & E & F).
  destruct (m tr) as [c tr']; cbn [snd] in E |- *; subst tr'.
  destruct (Hf (tr ++ evs)) as (evs' & E' & F').
  exists (evs ++ evs'). rewrite E', app_assoc. split; [reflexivity|].
  apply Forall_app. split; assumption.
Qed.

End Appends.

Lemma appends_fetchFn (P : Event -> Prop) w req :
  P (EvFetch req) -> P EvAbort -> appends P (fetchFn w req).
Proof.
  intros Hreq Hab tr. unfold fetchFn.
  destruct (net w tr req).
  - exists [EvFetch req]. split; [reflexivity|]. repeat constructor; assumption.
  - exists [EvFetch req]. split; [reflexivity|]. repeat constructor; assumption.
  - exists [EvFetch req; EvAbort]. cbn [snd]. rewrite <- app_assoc.
    split; [reflexivity|]. repeat constructor; assumption.
Qed.

Lemma appends_readBody (P : Event -> Prop) resp : P EvAbort -> appends P (readBody resp).
Proof.
  intros Hab. unfold readBody. destruct (payload resp).
  - apply appends_ret.
  - apply appends_throw.
  - apply appends_bind; [apply appends_emit; exact Hab|intros _; apply appends_throw].
Qed.

Lemma appends_In {A} (P : Event -> Prop) (m : Eff A) tr ev :
  appends P m -> In ev (snd (m tr)) -> In ev tr \/ P ev.
Proof.
  intros Hm Hin. destruct (Hm tr) as (evs & E & F). rewrite E in Hin.
  apply in_app_or in Hin as [Hin|Hin]; [left; exact Hin|right].
  rewrite Forall_forall in F. apply F. apply list_elem_of_In. exact Hin.
Qed.

(** ** The remote image fetcher *)

Lemma trimStart_head s :
  Js.trimStart s = EmptyString \/
  exists x t, Js.trimStart s = String x t /\ Js.isWhite x = false.
Proof.
  induction s as [|x s IH]; simpl; [left; reflexivity|].
  destruct (Js.isWhite x) eqn:Hx; [exact IH|].
  right. exists x, s. auto.
Qed.

Lemma trimEnd_head x t :
  Js.isWhite x = false -> exists t', Js.trimEnd (String x t) = String x t'.
Proof.
  intros Hx. cbn [Js.trimEnd]. destruct (Js.trimEnd t) as [|y u].
  - rewrite Hx. exists EmptyString. reflexivity.
  - exists (String y u). reflexivity.
Qed.

Lemma normalizeRemoteUrl_nonempty v n : normalizeRemoteUrl v = Some n -> n <> "".
Proof.
  assert (Hs : forall s, (if String.eqb (Js.trim s) "" then None
                          else Some (Js.stripWhite (Js.trim s))) = Some n -> n <> "").
  { intros s. unfold Js.trim.
    destruct (trimStart_head s) as [->|(x & t & -> & Hx)]; [discriminate|].
    destruct (trimEnd_head x t Hx) as [t' ->].
    cbn [String.eqb Js.stripWhite]. rewrite Hx.
    intros Hn. injection Hn as <-. discriminate. }
  destruct v; cbn [normalizeRemoteUrl]; try discriminate; apply Hs.
Qed.

Lemma isAbort_Error msg : isAbort (Error msg) = false.
Proof. reflexivity. Qed.

Lemma isAbort_AbortError : isAbort AbortError = true.
Proof. reflexivity. Qed.

Section Fetcher.
Context `{Platform} (w : World).

Lemma download_violation v label e tr :
  violation v label = Some e ->
  downloadRemoteImageAsBase64 w v label tr = (Throw e, tr).
Proof.
  unfold violation, downloadRemoteImageAsBase64.
  destruct (normalizeRemoteUrl v) as [n|] eqn:Hn.
  - apply normalizeRemoteUrl_nonempty, String.eqb_neq in Hn. rewrite Hn.
    unfold bind, lift.
    destruct (assertAllowedRemoteUrl n) as [[]|e']; [discriminate|].
    intros He. injection He as <-. reflexivity.
  - intros He. injection He as <-. reflexivity.
Qed.

Lemma download_run v label n tr :
  normalizeRemoteUrl v = Some n ->
  assertAllowedRemoteUrl n = Normal tt ->
  downloadRemoteImageAsBase64 w v label tr =
    let armed := tr ++ [EvSetTimeout (downloadTimeoutMs w)] in
    let out := downloadOutcome label n (net w armed (getRequest n)) in
    (fst out, tr ++ [EvSetTimeout (downloadTimeoutMs w); EvFetch (getRequest n)] ++ snd out).
Proof.
  intros Hn Hg. unfold downloadRemoteImageAsBase64. rewrite Hn.
  apply normalizeRemoteUrl_nonempty, String.eqb_neq in Hn. rewrite Hn, Hg.
  unfold downloadOutcome, downloadTimeoutMs, getRequest,
    bind, lift, emit, finally, tryCatch, fetchFn, readBody, ret, throw.
  cbn zeta.
  destruct (net w _ _) as [r|e|];
    [destruct (ok r); destruct (payload r) as [c|e|]| |];
    cbv [bind emit ret throw negb];
    rewrite ?isAbort_Error, ?isAbort_AbortError;
    try destruct (isAbort e);
    cbn [fst snd]; rewrite <- ?app_assoc; reflexivity.
Qed.

Lemma download_appends (P : Event -> Prop) v label :
  (forall n, assertAllowedRemoteUrl n = Normal tt -> P (EvFetch (getRequest n))) ->
  (forall ms, P (EvSetTimeout ms)) -> P EvAbort -> P EvClearTimeout ->
  appends P (downloadRemoteImageAsBase64 w v label).
Proof.
  intros Hget Hset Hab Hclear tr.
  destruct (violation v label) as [e|] eqn:Hv.
  - rewrite (download_violation _ _ _ _ Hv). exists []. rewrite app_nil_r.
    split; [reflexivity|constructor].
  - unfold violation in Hv.
    destruct (normalizeRemoteUrl v) as [n|] eqn:Hn; [|discriminate].
    destruct (assertAllowedRemoteUrl n) as [[]|] eqn:Hg; [|discriminate].
    rewrite (download_run _ _ _ _ Hn Hg). cbn zeta. cbn [snd].
    eexists. split; [reflexivity|].
    constructor; [apply Hset|]. constructor; [apply Hget, Hg|].
    unfold downloadOutcome.
    destruct (net w _ _) as [r|e|]; [destruct (ok r); destruct (payload r)| |];
      cbn [snd]; repeat constructor; assumption.
Qed.

End Fetcher.

(** ** The upstream dispatcher *)

Section Dispatcher.
Context `{Platform} (w : World).

Lemma postJson_run url fields tr :
  postJson w url fields tr =
    let armed := tr ++ [EvSetTimeout (engineTimeoutMs w)] in
    let out := postOutcome w url (net w armed (postRequest url fields)) in
    (fst out, tr ++ [EvSetTimeout (engineTimeoutMs w); EvFetch (postRequest url fields)]
              ++ snd out).
Proof.
  unfold postJson, postOutcome, parsedOrRaw, engineTimeoutMs, postRequest,
    bind, lift, emit, finally, tryCatch, fetchFn, readBody, ret, throw.
  cbn zeta.
  destruct (net w _ _) as [r|e|]; [destruct (payload r) as [c|e|]| |];
    cbv [bind emit ret throw];
    rewrite ?isAbort_AbortError;
    try destruct (isAbort e);
    cbn [fst snd]; rewrite <- ?app_assoc; reflexivity.
Qed.

Lemma postJson_normal url fields tr up tr' :
  postJson w url fields tr = (Normal up, tr') ->
  exists r text,
    net w (tr ++ [EvSetTimeout (engineTimeoutMs w)]) (postRequest url fields) = Responds r
    /\ payload r = BodyOk text
    /\ up = mkUpstream (ok r) (status r) (parsedOrRaw text).
Proof.
  rewrite postJson_run. cbn zeta. unfold postOutcome.
  destruct (net w _ _) as [r|e|]; [|discriminate|discriminate].
  destruct (payload r) as [text|e|] eqn:Hp; [|discriminate|discriminate].
  cbn [fst snd]. intros Hup. injection Hup as <- _.
  exists r, text. auto.
Qed.

Lemma postJson_appends (P : Event -> Prop) url fields :
  P (EvFetch (postRequest url fields)) ->
  (forall ms, P (EvSetTimeout ms)) -> P EvAbort -> P EvClearTimeout ->
  appends P (postJson w url fields).
Proof.
  intros Hpost Hset Hab Hclear tr. rewrite postJson_run. cbn zeta. cbn [snd].
  eexists. split; [reflexivity|].
  constructor; [apply Hset|]. constructor; [apply Hpost|].
  unfold postOutcome.
  destruct (net w _ _) as [r|e|]; [destruct (payload r)| |];
    cbn [snd]; repeat constructor; assumption.
Qed.

(** C6: when the text of the upstream's response is not valid JSON, the
    dispatcher does not fail: it returns the status together with the body
    [{ raw: text }]. *)
Theorem postJson_wraps_non_json (url : string) (fields : list (string * option string))
    (tr : list Event) (r : HttpResponse) (text : string) :
  net w (tr ++ [EvSetTimeout (engineTimeoutMs w)]) (postRequest url fields) = Responds r ->
  payload r = BodyOk text ->
  JSON_parse text = None ->
  postJson w url fields tr =
    (Normal (mkUpstream (ok r) (status r) (Raw text)),
     tr ++ [EvSetTimeout (engineTimeoutMs w); EvFetch (postRequest url fields);
            EvClearTimeout]).
Proof.
  intros Hnet Hbody Hparse. rewrite postJson_run. cbn zeta.
  unfold postOutcome, parsedOrRaw. rewrite Hnet, Hbody, Hparse. reflexivity.
Qed.

End Dispatcher.

Lemma postJson_wraps_non_json_witness :
  postJson (H := Node.platform) (Scenario.serving "img" Scenario.notJson)
    "http://127.0.0.1:7860/verify-cnic" (imageFields (Some "aW1n")) [] =
  (Normal (mkUpstream false 502 (Raw "not json")),
   [EvSetTimeout 60000;
    EvFetch (postRequest "http://127.0.0.1:7860/verify-cnic" (imageFields (Some "aW1n")));
    EvClearTimeout]).
Proof.
  exact (postJson_wraps_non_json (H := Node.platform)
           (Scenario.serving "img" Scenario.notJson)
           "http://127.0.0.1:7860/verify-cnic" (imageFields (Some "aW1n")) []
           Scenario.notJson "not json" eq_refl eq_refl eq_refl).
Defined.

(** ** The request handlers *)

Section Handlers.
Context `{Platform} (w : World).

(** Every handler is its resolution phase, the check for a missing image
    and the relay, inside one try/catch. *)
Lemma handler_eq ep body tr :
  handler ep w body tr =
    tryCatch
      (images <- resolveImages ep w (bodyOrEmpty body) ;;
       if existsb falsy images
       then ret (mkReply 400 (ErrorBody (missingMessage ep)))
       else relay w (upstreamPath ep) (fieldsOf images))
      onError tr.
Proof.
  destruct ep; unfold handler, verify_cnic, face_verify, shop_verify, resolveImages,
    tryCatch, bind; cbn zeta;
    fold (slotInline VerifyCnic (bodyOrEmpty body)) (slotUrl VerifyCnic (bodyOrEmpty body))
         (slotInline FaceVerify (bodyOrEmpty body)) (slotUrl FaceVerify (bodyOrEmpty body))
         (slotInline ShopVerify (bodyOrEmpty body)) (slotUrl ShopVerify (bodyOrEmpty body))
         (selfieInline (bodyOrEmpty body)) (selfieUrl (bodyOrEmpty body)).
  - change (if falsy ?i && truthy ?u then _ else ret ?i) with (resolveSlot w i u "CNIC image").
    cbn [slotLabel].
    destruct (resolveSlot w _ _ _ tr) as [[image|e] tr1]; [|reflexivity].
    cbn [ret existsb]. rewrite orb_false_r. reflexivity.
  - change (if falsy (normalizeBase64 (slotInline FaceVerify ?b)) && truthy ?u then _ else ret ?i)
      with (resolveSlot w i u "CNIC image").
    cbn [slotLabel].
    destruct (resolveSlot w _ _ "CNIC image" tr) as [[image1|e] tr1]; [|reflexivity].
    change (if falsy ?i && truthy ?u then _ else ret ?i) with (resolveSlot w i u "selfie image").
    destruct (resolveSlot w _ _ "selfie image" tr1) as [[image2|e] tr2]; [|reflexivity].
    cbn [ret existsb]. rewrite orb_false_r. reflexivity.
  - change (if falsy ?i && truthy ?u then _ else ret ?i) with (resolveSlot w i u "shop image").
    cbn [slotLabel].
    destruct (resolveSlot w _ _ _ tr) as [[image|e] tr1]; [|reflexivity].
    cbn [ret existsb]. rewrite orb_false_r. reflexivity.
Qed.

Lemma handler_run_throw ep body tr e tr' :
  resolveImages ep w (bodyOrEmpty body) tr = (Throw e, tr') ->
  handler ep w body tr = (Normal (mkReply 500 (ErrorBody (message e))), tr').
Proof.
  intros Hr. rewrite handler_eq. unfold tryCatch, bind. rewrite Hr. reflexivity.
Qed.

Lemma handler_run_missing ep body tr images tr' :
  resolveImages ep w (bodyOrEmpty body) tr = (Normal images, tr') ->
  existsb falsy images = true ->
  handler ep w body tr = (Normal (mkReply 400 (ErrorBody (missingMessage ep))), tr').
Proof.
  intros Hr Hf. rewrite handler_eq. unfold tryCatch, bind. rewrite Hr, Hf. reflexivity.
Qed.

Lemma handler_run_relay ep body tr images tr' :
  resolveImages ep w (bodyOrEmpty body) tr = (Normal images, tr') ->
  existsb falsy images = false ->
  handler ep w body tr = tryCatch (relay w (upstreamPath ep) (fieldsOf images)) onError tr'.
Proof.
  intros Hr Hf. rewrite handler_eq. unfold tryCatch, bind. rewrite Hr, Hf. reflexivity.
Qed.

Lemma resolveSlot_download image v label tr :
  falsy image = true -> truthy v = true ->
  resolveSlot w image v label tr =
    match downloadRemoteImageAsBase64 w v label tr with
    | (Normal b, tr') => (Normal (normalizeBase64 (VString b)), tr')
    | (Throw e, tr') => (Throw e, tr')
    end.
Proof. intros Hi Hv. unfold resolveSlot, bind. rewrite Hi, Hv. reflexivity. Qed.

Lemma resolveSlot_keep image v label tr :
  falsy image = false \/ truthy v = false ->
  resolveSlot w image v label tr = (Normal image, tr).
Proof.
  intros Hk. unfold resolveSlot.
  destruct Hk as [-> | ->]; [|rewrite andb_false_r]; reflexivity.
Qed.

(** A slot ends unresolved exactly when there is no inline image and either
    no URL, or a download that returned nothing usable. *)
Lemma resolveSlot_unresolved inline v label tr image tr' :
  resolveSlot w inline v label tr = (Normal image, tr') /\ falsy image = true <->
  falsy inline = true /\
  ((truthy v = false /\ image = inline /\ tr' = tr) \/
   (truthy v = true /\
    exists b, downloadRemoteImageAsBase64 w v label tr = (Normal b, tr')
              /\ image = normalizeBase64 (VString b) /\ falsy image = true)).
Proof.
  split.
  - intros [Hr Hf]. destruct (falsy inline) eqn:Hi.
    + split; [reflexivity|]. destruct (truthy v) eqn:Hv.
      * right. split; [reflexivity|].
        rewrite (resolveSlot_download _ _ _ _ Hi Hv) in Hr.
        destruct (downloadRemoteImageAsBase64 w v label tr) as [[b|e] tr1];
          [|discriminate].
        injection Hr as <- <-. exists b. auto.
      * left. rewrite resolveSlot_keep in Hr by (right; exact Hv).
        injection Hr as <- <-. auto.
    + rewrite resolveSlot_keep in Hr by (left; exact Hi).
      injection Hr as <- <-. rewrite Hi in Hf. discriminate.
  - intros [Hi [(Hv & -> & ->)|(Hv & b & Hd & -> & Hf)]].
    + split; [apply resolveSlot_keep; right; exact Hv|exact Hi].
    + split; [|exact Hf]. rewrite (resolveSlot_download _ _ _ _ Hi Hv), Hd. reflexivity.
Qed.

(** When the download for the first slot of an endpoint throws, so does
    the resolution phase. *)
Lemma resolveImages_first_throw ep input tr e tr' :
  falsy (normalizeBase64 (slotInline ep input)) = true ->
  truthy (slotUrl ep input) = true ->
  downloadRemoteImageAsBase64 w (slotUrl ep input) (slotLabel ep) tr = (Throw e, tr') ->
  resolveImages ep w input tr = (Throw e, tr').
Proof.
  intros Hi Hv Hd.
  destruct ep; unfold resolveImages, bind;
    rewrite (resolveSlot_download _ _ _ _ Hi Hv), Hd; reflexivity.
Qed.

Lemma resolveSlot_appends (P : Event -> Prop) image v label :
  (forall n, assertAllowedRemoteUrl n = Normal tt -> P (EvFetch (getRequest n))) ->
  (forall ms, P (EvSetTimeout ms)) -> P EvAbort -> P EvClearTimeout ->
  appends P (resolveSlot w image v label).
Proof.
  intros Hget Hset Hab Hclear. unfold resolveSlot.
  destruct (falsy image && truthy v); [|apply appends_ret].
  apply appends_bind; [apply download_appends; assumption|].
  intros b. apply appends_ret.
Qed.

Lemma resolveImages_appends (P : Event -> Prop) ep input :
  (forall n, assertAllowedRemoteUrl n = Normal tt -> P (EvFetch (getRequest n))) ->
  (forall ms, P (EvSetTimeout ms)) -> P EvAbort -> P EvClearTimeout ->
  appends P (resolveImages ep w input).
Proof.
  intros Hget Hset Hab Hclear.
  destruct ep; unfold resolveImages;
    repeat first [ apply appends_ret
                 | apply resolveSlot_appends; assumption
                 | apply appends_bind
                 | intro ].
Qed.

Lemma guarded_get n : assertAllowedRemoteUrl n = Normal tt -> guarded (EvFetch (getRequest n)).
Proof. intros Hg. right. split; [reflexivity|exact Hg]. Qed.

Lemma relay_appends_guarded path fields : appends guarded (relay w path fields).
Proof.
  unfold relay. apply appends_bind; [apply appends_lift|]. intros base.
  apply appends_bind; [|intros up; apply appends_ret].
  apply postJson_appends; try exact I.
  - left. reflexivity.
  - intros ms. exact I.
Qed.

(** Every call of [fetch] a handler makes is the dispatch or the download of
    a URL that the guard has accepted. *)
Lemma handler_appends_guarded ep body : appends guarded (handler ep w body).
Proof.
  intros tr. rewrite handler_eq. revert tr.
  apply appends_tryCatch; [|intros e; apply appends_ret].
  apply appends_bind.
  - apply resolveImages_appends; try exact I; [apply guarded_get|intros ms; exact I].
  - intros images. destruct (existsb falsy images); [apply appends_ret|].
    apply relay_appends_guarded.
Qed.

Lemma missingMessage_mentions ep :
  Js.includes (missingMessage ep) "Missing" = true /\
  Js.includes (missingMessage ep) "image" = true.
Proof. destruct ep; split; reflexivity. Qed.

(** C2: a URL that the guard refuses makes the download fail with the
    guard's error before anything is appended to the trace, so that no GET is
    issued for it; and every GET that the download or a handler does issue
    is for a URL that the guard has accepted. *)
Theorem guard_before_network (v : Value) (label : string) (tr : list Event) :
  (forall n e,
     normalizeRemoteUrl v = Some n ->
     assertAllowedRemoteUrl n = Throw e ->
     downloadRemoteImageAsBase64 w v label tr = (Throw e, tr))
  /\ (forall req,
        In (EvFetch req) (snd (downloadRemoteImageAsBase64 w v label tr)) ->
        In (EvFetch req) tr \/ assertAllowedRemoteUrl (url req) = Normal tt)
  /\ (forall ep body req,
        In (EvFetch req) (snd (handler ep w body tr)) ->
        method req = "GET" ->
        In (EvFetch req) tr \/ assertAllowedRemoteUrl (url req) = Normal tt).
Proof.
  split; [|split].
  - intros n e Hn Hg. apply download_violation. unfold violation. rewrite Hn, Hg. reflexivity.
  - intros req Hin.
    apply (appends_In (fun ev => match ev with
                                 | EvFetch r => assertAllowedRemoteUrl (url r) = Normal tt
                                 | _ => True
                                 end)) in Hin; [exact Hin|].
    apply download_appends; try exact I; [|intros ms; exact I].
    intros n Hg. exact Hg.
  - intros ep body req Hin Hget.
    apply (appends_In guarded) in Hin; [|apply handler_appends_guarded].
    destruct Hin as [Hin|[Hpost|[_ Hg]]]; [left; exact Hin| |right; exact Hg].
    rewrite Hget in Hpost. discriminate.
Qed.

Lemma violation_forms v label e :
  violation v label = Some e ->
  e = Error ("Missing " +:+ label +:+ " URL")
  \/ e = InvalidUrl
  \/ (exists n, e = Error ("Only https URLs are allowed: " +:+ n))
  \/ (exists host, e = Error ("Remote URL host not allowed: " +:+ host)).
Proof.
  unfold violation. destruct (normalizeRemoteUrl v) as [n|].
  - rewrite guard_unfold. destruct (URL_parse n) as [uri|].
    + destruct (String.eqb (protocol uri) "https:").
      * destruct (hostAllowed _); [discriminate|].
        intros He. injection He as <-. right. right. right. eexists. reflexivity.
      * intros He. injection He as <-. right. right. left. eexists. reflexivity.
    + intros He. injection He as <-. right. left. reflexivity.
  - intros He. injection He as <-. left. reflexivity.
Qed.

(** Whatever makes the download for the second slot of the face-verify
    endpoint fail, once the first slot has been resolved, the handler answers
    500 with that error's message. *)
Lemma selfie_failure_is_500 body tr image1 tr1 e tr2 :
  resolveSlot w (normalizeBase64 (slotInline FaceVerify (bodyOrEmpty body)))
    (slotUrl FaceVerify (bodyOrEmpty body)) "CNIC image" tr = (Normal image1, tr1) ->
  falsy (normalizeBase64 (selfieInline (bodyOrEmpty body))) = true ->
  truthy (selfieUrl (bodyOrEmpty body)) = true ->
  downloadRemoteImageAsBase64 w (selfieUrl (bodyOrEmpty body)) "selfie image" tr1
    = (Throw e, tr2) ->
  face_verify w body tr = (Normal (mkReply 500 (ErrorBody (message e))), tr2).
Proof.
  intros H1 Hi Hv Hd.
  apply (handler_run_throw FaceVerify). unfold resolveImages, bind. cbn [slotLabel].
  rewrite H1, (resolveSlot_download _ _ _ _ Hi Hv), Hd. reflexivity.
Qed.

(** The same for a refusal before the network. *)
Lemma selfie_violation_is_500 body tr image1 tr1 e :
  resolveSlot w (normalizeBase64 (slotInline FaceVerify (bodyOrEmpty body)))
    (slotUrl FaceVerify (bodyOrEmpty body)) "CNIC image" tr = (Normal image1, tr1) ->
  falsy (normalizeBase64 (selfieInline (bodyOrEmpty body))) = true ->
  truthy (selfieUrl (bodyOrEmpty body)) = true ->
  violation (selfieUrl (bodyOrEmpty body)) "selfie image" = Some e ->
  face_verify w body tr = (Normal (mkReply 500 (ErrorBody (message e))), tr1).
Proof.
  intros H1 Hi Hv He.
  apply (selfie_failure_is_500 body tr image1 tr1 e tr1 H1 Hi Hv).
  apply download_violation. exact He.
Qed.

(** C3 (as amended): when the remote URL of an image slot is refused (it is
    missing, does not parse, is not https, or its host is outside the
    allow-list), the gateway answers with status 500, which is not of the 400
    class, and with the refusal's message.  For the first slot of an endpoint
    nothing at all is sent on the network.  For the second slot of the
    face-verify endpoint, which is reached once the first slot is resolved,
    the trace holds what the first slot did and nothing more: downloads of
    URLs that the guard accepted, and no dispatch. *)
Theorem allowlist_violation_is_500 (ep : Endpoint) (body : option (gmap string Value))
    (tr : list Event) (e : JsError) :
  (falsy (normalizeBase64 (slotInline ep (bodyOrEmpty body))) = true ->
   truthy (slotUrl ep (bodyOrEmpty body)) = true ->
   violation (slotUrl ep (bodyOrEmpty body)) (slotLabel ep) = Some e ->
   handler ep w body tr = (Normal (mkReply 500 (ErrorBody (message e))), tr))
  /\ (forall image1 tr1,
        ep = FaceVerify ->
        resolveSlot w (normalizeBase64 (slotInline ep (bodyOrEmpty body)))
          (slotUrl ep (bodyOrEmpty body)) (slotLabel ep) tr = (Normal image1, tr1) ->
        falsy (normalizeBase64 (selfieInline (bodyOrEmpty body))) = true ->
        truthy (selfieUrl (bodyOrEmpty body)) = true ->
        violation (selfieUrl (bodyOrEmpty body)) "selfie image" = Some e ->
        handler ep w body tr = (Normal (mkReply 500 (ErrorBody (message e))), tr1)
        /\ exists evs, tr1 = tr ++ evs /\ Forall notPost evs /\ Forall guarded evs)
  /\ ~ clientError 500
  /\ (forall v label,
        violation v label = Some e ->
        e = Error ("Missing " +:+ label +:+ " URL")
        \/ e = InvalidUrl
        \/ (exists n, e = Error ("Only https URLs are allowed: " +:+ n))
        \/ (exists host, e = Error ("Remote URL host not allowed: " +:+ host))).
Proof.
  split; [|split; [|split; [unfold clientError; lia|]]].
  - intros Hi Hv He.
    apply handler_run_throw, resolveImages_first_throw; try assumption.
    apply download_violation. exact He.
  - intros image1 tr1 -> H1 Hi Hv He. split.
    + apply (selfie_violation_is_500 body tr image1 tr1 e H1 Hi Hv He).
    + destruct (resolveSlot_appends (fun ev => notPost ev /\ guarded ev)
                  (normalizeBase64 (slotInline FaceVerify (bodyOrEmpty body)))
                  (slotUrl FaceVerify (bodyOrEmpty body)) (slotLabel FaceVerify))
        with (tr := tr) as (evs & E & F).
      * intros n Hg. split; [reflexivity|apply guarded_get, Hg].
      * intros ms. split; exact I.
      * split; exact I.
      * split; exact I.
      * rewrite H1 in E. cbn [snd] in E. exists evs. split; [exact E|].
        split; eapply Forall_impl; try exact F; intros ev [Hp Hg]; assumption.
  - intros v label He. apply (violation_forms _ _ _ He).
Qed.

(** C7 (as amended): when the resolution phase completes, that is, no
    download throws, and ends with a required slot holding neither inline
    base64 nor a downloaded image, the handler answers 400 with the message
    about the missing image, and nothing is posted to the upstream engine; in
    particular the shop-verify endpoint answers 400 to the empty object. *)
Theorem missing_image_is_400 (ep : Endpoint) (body : option (gmap string Value))
    (tr : list Event) (images : list (option string)) (tr' : list Event) :
  resolveImages ep w (bodyOrEmpty body) tr = (Normal images, tr') ->
  Exists (fun image => falsy image = true) images ->
  handler ep w body tr = (Normal (mkReply 400 (ErrorBody (missingMessage ep))), tr')
  /\ clientError 400
  /\ Js.includes (missingMessage ep) "Missing" = true
  /\ Js.includes (missingMessage ep) "image" = true
  /\ (exists evs, tr' = tr ++ evs /\ Forall notPost evs)
  /\ shop_verify w (Some ∅) tr = (Normal (mkReply 400 (ErrorBody missingShopImage)), tr).
Proof.
  intros Hr Hex. split; [|split; [|split; [|split; [|split]]]].
  - apply (handler_run_missing _ _ _ images); [exact Hr|].
    apply existsb_exists. apply Exists_exists in Hex as (image & Hin & Hf).
    exists image. split; [apply list_elem_of_In; exact Hin|exact Hf].
  - unfold clientError. lia.
  - apply missingMessage_mentions.
  - apply missingMessage_mentions.
  - destruct (resolveImages_appends notPost ep (bodyOrEmpty body)) with (tr := tr)
      as (evs & E & F); try exact I.
    + intros n _. reflexivity.
    + intros ms. exact I.
    + rewrite Hr in E. exists evs. split; assumption.
  - reflexivity.
Qed.

(** C5: when the dispatch to the upstream engine completes, whatever the
    upstream's status code, the gateway answers with that status code and with
    the upstream's body, parsed or wrapped as raw text. *)
Theorem upstream_response_relayed (ep : Endpoint) (body : option (gmap string Value))
    (tr tr1 tr2 : list Event) (images : list (option string)) (base : string)
    (up : Upstream) :
  resolveImages ep w (bodyOrEmpty body) tr = (Normal images, tr1) ->
  existsb falsy images = false ->
  kycBaseUrl w = Normal base ->
  postJson w (base +:+ upstreamPath ep) (fieldsOf images) tr1 = (Normal up, tr2) ->
  handler ep w body tr = (Normal (mkReply (up_status up) (DataBody (up_data up))), tr2)
  /\ exists r text,
       net w (tr1 ++ [EvSetTimeout (engineTimeoutMs w)])
         (postRequest (base +:+ upstreamPath ep) (fieldsOf images)) = Responds r
       /\ payload r = BodyOk text
       /\ up_status up = status r
       /\ up_data up = parsedOrRaw text.
Proof.
  intros Hr Hf Hb Hp. split.
  - rewrite (handler_run_relay _ _ _ _ _ Hr Hf).
    unfold tryCatch, relay, bind, lift. rewrite Hb, Hp. reflexivity.
  - apply postJson_normal in Hp as (r & text & Hnet & Hbody & ->).
    exists r, text. auto.
Qed.

End Handlers.

(** ** Timeouts *)


Lemma downloadTimeout_unparsable w s :
  env w !! "HTTP_DOWNLOAD_TIMEOUT_MS" = Some s ->
  Js.parseInt s = None -> downloadTimeoutMs w = 45000.
Proof.
  intros He Hp. unfold downloadTimeoutMs, envOr. rewrite He.
  destruct (String.eqb s ""); [reflexivity|]. rewrite Hp. reflexivity.
Qed.

(** ** Concrete runs *)


(** C3, as stated, fails: the request of scenario 3, whose URL is not https,
    is answered with status 500, not with a status of the 400 class. *)
Lemma allowlist_violation_not_400 :
  let e := Error "Only https URLs are allowed: http://res.cloudinary.com/x.jpg" in
  violation (H := Node.platform) (VString "http://res.cloudinary.com/x.jpg") "CNIC image"
    = Some e
  /\ verify_cnic (H := Node.platform) (Scenario.serving "img" Scenario.okJson)
       Scenario.httpUrlRequest [] = (Normal (mkReply 500 (ErrorBody (message e))), [])
  /\ ~ clientError 500.
Proof.
  cbv zeta. split; [reflexivity|].
  split; [reflexivity|].
  unfold clientError. lia.
Qed.

Lemma allowlist_violation_is_500_witness :
  handler (H := Node.platform) VerifyCnic (Scenario.serving "img" Scenario.okJson)
    Scenario.httpUrlRequest [] =
  (Normal (mkReply 500
     (ErrorBody "Only https URLs are allowed: http://res.cloudinary.com/x.jpg")), [])
  /\ handler (H := Node.platform) FaceVerify (Scenario.serving "img" Scenario.okJson)
       (Some {[ "image1Url" := VString Worlds.demoUrl;
                "image2Url" := VString "https://evil.example/x.jpg" ]}) [] =
     (Normal (mkReply 500 (ErrorBody "Remote URL host not allowed: evil.example")),
      [EvSetTimeout 45000; EvFetch (getRequest Worlds.demoUrl); EvClearTimeout]).
Proof.
  split.
  - exact (proj1 (allowlist_violation_is_500 (H := Node.platform)
                    (Scenario.serving "img" Scenario.okJson) VerifyCnic
                    Scenario.httpUrlRequest []
                    (Error "Only https URLs are allowed: http://res.cloudinary.com/x.jpg"))
                 eq_refl eq_refl eq_refl).
  - exact (proj1 (proj1 (proj2 (allowlist_violation_is_500 (H := Node.platform)
                    (Scenario.serving "img" Scenario.okJson) FaceVerify
                    (Some {[ "image1Url" := VString Worlds.demoUrl;
                             "image2Url" := VString "https://evil.example/x.jpg" ]}) []
                    (Error "Remote URL host not allowed: evil.example")))
                 (Some "aW1n")
                 [EvSetTimeout 45000; EvFetch (getRequest Worlds.demoUrl); EvClearTimeout]
                 eq_refl eq_refl eq_refl eq_refl eq_refl)).
Defined.

Lemma missing_image_is_400_witness :
  handler (H := Node.platform) ShopVerify (Scenario.serving "img" Scenario.okJson)
    Scenario.emptyRequest [] =
  (Normal (mkReply 400 (ErrorBody missingShopImage)), []).
Proof.
  refine (proj1 (missing_image_is_400 (H := Node.platform)
                   (Scenario.serving "img" Scenario.okJson) ShopVerify
                   Scenario.emptyRequest [] [None] [] eq_refl _)).
  constructor. reflexivity.
Defined.

Lemma upstream_response_relayed_witness :
  handler (H := Node.platform) VerifyCnic (Scenario.serving "img" Scenario.notJson)
    Scenario.inlineRequest [] =
  (Normal (mkReply 502 (DataBody (Raw "not json"))),
   [EvSetTimeout 60000;
    EvFetch (postRequest "http://127.0.0.1:7860/verify-cnic"
               (imageFields (Some "iVBORw0KGgo=")));
    EvClearTimeout]).
Proof.
  exact (proj1 (upstream_response_relayed (H := Node.platform)
                  (Scenario.serving "img" Scenario.notJson) VerifyCnic
                  Scenario.inlineRequest [] [] _ [Some "iVBORw0KGgo="]
                  "http://127.0.0.1:7860" (mkUpstream false 502 (Raw "not json"))
                  eq_refl eq_refl eq_refl eq_refl)).
Defined.

Example face_verify_one_image :
  face_verify (H := Node.platform) (Scenario.serving "img" Scenario.okJson)
    (Some {[ "image1" := VString "iVBORw0KGgo=" ]}) [] =
  (Normal (mkReply 400 (ErrorBody missingFaceImages)), []).
Proof. reflexivity. Qed.

Example empty_download_is_missing :
  verify_cnic (H := Node.platform) (Scenario.serving "" Scenario.okJson)
    Scenario.remoteRequest [] =
  (Normal (mkReply 400 (ErrorBody missingCnicImage)),
   [EvSetTimeout 45000; EvFetch (getRequest "https://res.cloudinary.com/demo/x.jpg");
    EvClearTimeout]).
Proof. reflexivity. Qed.

Lemma assertAllowedRemoteUrl_outcomes_witness :
  assertAllowedRemoteUrl (H := Node.platform) "http://res.cloudinary.com/x.jpg" =
    Throw (Error "Only https URLs are allowed: http://res.cloudinary.com/x.jpg")
  /\ assertAllowedRemoteUrl (H := Node.platform) "https://evil.com/x.jpg" =
       Throw (Error "Remote URL host not allowed: evil.com")
  /\ assertAllowedRemoteUrl (H := Node.platform) "not a url" = Throw InvalidUrl.
Proof.
  split; [|split].
  - refine (proj1 (proj2 (proj2 (assertAllowedRemoteUrl_outcomes (H := Node.platform)
                                   "http://res.cloudinary.com/x.jpg")))
                  (mkURL "http:" "res.cloudinary.com") eq_refl _).
    discriminate.
  - refine (proj2 (proj2 (proj2 (assertAllowedRemoteUrl_outcomes (H := Node.platform)
                                   "https://evil.com/x.jpg")))
                  (mkURL "https:" "evil.com") eq_refl eq_refl _).
    intros Hin. apply hostAllowed_iff in Hin. discriminate Hin.
  - exact (proj1 (proj2 (assertAllowedRemoteUrl_outcomes (H := Node.platform) "not a url"))
                 eq_refl).
Defined.

Lemma guard_before_network_witness :
  downloadRemoteImageAsBase64 (H := Node.platform) (Scenario.serving "img" Scenario.okJson)
    (VString "http://res.cloudinary.com/x.jpg") "CNIC image" [] =
  (Throw (Error "Only https URLs are allowed: http://res.cloudinary.com/x.jpg"), []).
Proof.
  exact (proj1 (guard_before_network (H := Node.platform)
                  (Scenario.serving "img" Scenario.okJson)
                  (VString "http://res.cloudinary.com/x.jpg") "CNIC image" [])
               "http://res.cloudinary.com/x.jpg"
               (Error "Only https URLs are allowed: http://res.cloudinary.com/x.jpg")
               eq_refl eq_refl).
Defined.

Lemma normalizeBase64_contract_witness :
  normalizeBase64 (VString " data:image/png;base64,AAAA ") = Some "AAAA".
Proof.
  refine (proj1 (proj2 (normalizeBase64_contract (Some " data:image/png;base64,AAAA ")))
                " data:image/png;base64,AAAA " "data:image/png;base64" "AAAA"
                eq_refl eq_refl eq_refl _).
  intros Hc. apply indexOf_contains in Hc. vm_compute in Hc. apply Hc. reflexivity.
Defined.

(** * Further properties *)

(** ** White space *)

Lemma trimStart_empty_iff s : Js.trimStart s = "" <-> allWhite s = true.
Proof.
  induction s as [|x s IH]; simpl; [tauto|].
  destruct (Js.isWhite x); simpl; [exact IH|].
  split; discriminate.
Qed.

Lemma trim_empty_iff s : Js.trim s = "" <-> allWhite s = true.
Proof.
  rewrite <- trimStart_empty_iff. unfold Js.trim. split.
  - destruct (trimStart_head s) as [He|(x & t & He & Hx)]; [intros _; exact He|].
    rewrite He. destruct (trimEnd_head x t Hx) as [t' ->]. discriminate.
  - intros ->. reflexivity.
Qed.

Lemma stripWhite_noWhite s : noWhite (Js.stripWhite s) = true.
Proof.
  induction s as [|x s IH]; simpl; [reflexivity|].
  destruct (Js.isWhite x) eqn:Hx; [exact IH|].
  simpl. rewrite Hx, IH. reflexivity.
Qed.

Lemma noWhite_stripWhite s : noWhite s = true -> Js.stripWhite s = s.
Proof.
  induction s as [|x s IH]; simpl; [reflexivity|].
  destruct (Js.isWhite x); simpl; [discriminate|].
  intros Hs. rewrite (IH Hs). reflexivity.
Qed.

Lemma noWhite_trimStart s : noWhite s = true -> Js.trimStart s = s.
Proof.
  destruct s as [|x s]; simpl; [reflexivity|].
  destruct (Js.isWhite x); simpl; [discriminate|reflexivity].
Qed.

Lemma noWhite_trimEnd s : noWhite s = true -> Js.trimEnd s = s.
Proof.
  induction s as [|x s IH]; [reflexivity|].
  cbn [noWhite Js.trimEnd]. destruct (Js.isWhite x); simpl; [discriminate|].
  intros Hs. rewrite (IH Hs). destruct s; reflexivity.
Qed.

Lemma noWhite_trim s : noWhite s = true -> Js.trim s = s.
Proof.
  intros Hs. unfold Js.trim. rewrite (noWhite_trimStart _ Hs). apply noWhite_trimEnd, Hs.
Qed.

Lemma trimEnd_idem s : Js.trimEnd (Js.trimEnd s) = Js.trimEnd s.
Proof.
  induction s as [|x s IH]; [reflexivity|].
  cbn [Js.trimEnd]. destruct (Js.trimEnd s) as [|y t] eqn:Ht.
  - destruct (Js.isWhite x) eqn:Hx; [reflexivity|].
    cbn [Js.trimEnd]. rewrite Hx. reflexivity.
  - cbn [Js.trimEnd] in IH |- *. rewrite IH. reflexivity.
Qed.

Lemma trim_trimEnd s : Js.trimEnd (Js.trim s) = Js.trim s.
Proof. apply trimEnd_idem. Qed.

Lemma trim_idem s : Js.trim (Js.trim s) = Js.trim s.
Proof.
  unfold Js.trim at 1.
  assert (Hs : Js.trimStart (Js.trim s) = Js.trim s).
  { unfold Js.trim. destruct (trimStart_head s) as [->|(x & t & -> & Hx)]; [reflexivity|].
    destruct (trimEnd_head x t Hx) as [t' ->]. cbn [Js.trimStart]. rewrite Hx. reflexivity. }
  rewrite Hs. apply trim_trimEnd.
Qed.

(** A non-empty suffix of a string without trailing white space has none. *)
Lemma trimEnd_suffix a b :
  Js.trimEnd (a +:+ b) = a +:+ b -> b <> "" -> Js.trimEnd b = b.
Proof.
  induction a as [|x a IH]; intros Hab Hb; [exact Hab|].
  rewrite append_cons in Hab. cbn [Js.trimEnd] in Hab.
  destruct (Js.trimEnd (a +:+ b)) as [|y t] eqn:Ht.
  - assert (Hnil : a +:+ b = "").
    { destruct (Js.isWhite x); [discriminate|]. injection Hab as Hab. symmetry. exact Hab. }
    destruct a; [rewrite append_nil_l in Hnil; contradiction|discriminate].
  - injection Hab as Hab. apply IH; [|exact Hb]. congruence.
Qed.

(** Prefixing a non-empty string without trailing white space adds none. *)
Lemma trimEnd_append a b :
  Js.trimEnd b = b -> b <> "" -> Js.trimEnd (a +:+ b) = a +:+ b.
Proof.
  intros Hb Hne. induction a as [|x a IH]; [exact Hb|].
  rewrite append_cons. cbn [Js.trimEnd]. rewrite IH.
  destruct (a +:+ b) eqn:Hab; [|reflexivity].
  destruct a; [rewrite append_nil_l in Hab; contradiction|discriminate].
Qed.

Lemma indexOf_split s c :
  0 <= Js.indexOf s c ->
  exists pre post, s = pre +:+ String c post /\ ~ contains pre c.
Proof.
  induction s as [|x s IH]; simpl; [lia|].
  destruct (Ascii.eqb_spec x c) as [->|Hne].
  - intros _. exists EmptyString, s. split; [reflexivity|].
    intros (a & b & Hab). destruct a; discriminate.
  - destruct (Z.ltb_spec (Js.indexOf s c) 0); [lia|]. intros _.
    destruct IH as (pre & post & -> & Hn); [lia|].
    exists (String x pre), post. split; [reflexivity|].
    intros (a & b & Hab). destruct a as [|y a].
    + rewrite append_nil_l in Hab. injection Hab as Hx _. contradiction.
    + rewrite append_cons in Hab. injection Hab as _ Hab. apply Hn. exists a, b. exact Hab.
Qed.

(** ** The URL normalizer *)

(** X1: a normalized remote URL is never empty and holds no white space, and
    normalizing it again changes nothing. *)
Theorem normalizeRemoteUrl_clean (v : Value) (n : string) :
  normalizeRemoteUrl v = Some n ->
  n <> "" /\ noWhite n = true /\ normalizeRemoteUrl (VString n) = Some n.
Proof.
  intros Hn. pose proof (normalizeRemoteUrl_nonempty v n Hn) as Hne.
  assert (Hw : noWhite n = true).
  { destruct v; cbn [normalizeRemoteUrl] in Hn; try discriminate;
      destruct (String.eqb (Js.trim _) ""); try discriminate;
      injection Hn as <-; apply stripWhite_noWhite. }
  split; [exact Hne|]. split; [exact Hw|].
  cbn [normalizeRemoteUrl toString]. rewrite (noWhite_trim _ Hw).
  apply String.eqb_neq in Hne. rewrite Hne, (noWhite_stripWhite _ Hw). reflexivity.
Qed.

Lemma normalizeRemoteUrl_clean_witness :
  normalizeRemoteUrl (VString " https://res.cloudinary.com/a b.jpg ")
    = Some "https://res.cloudinary.com/ab.jpg"
  /\ normalizeRemoteUrl (VString "https://res.cloudinary.com/ab.jpg")
     = Some "https://res.cloudinary.com/ab.jpg".
Proof.
  split; [reflexivity|].
  exact (proj2 (proj2 (normalizeRemoteUrl_clean
                         (VString " https://res.cloudinary.com/a b.jpg ")
                         "https://res.cloudinary.com/ab.jpg" eq_refl))).
Defined.

(** X2: the URL normalizer gives null exactly for null, undefined and the
    values whose string form holds nothing but white space. *)
Theorem normalizeRemoteUrl_null_iff (v : Value) :
  normalizeRemoteUrl v = None <->
  v = VUndefined \/ v = VNull \/ allWhite (toString v) = true.
Proof.
  assert (Hs : forall s, (if String.eqb (Js.trim s) "" then None
                          else Some (Js.stripWhite (Js.trim s))) = None
                         <-> allWhite s = true).
  { intros s. rewrite <- trim_empty_iff.
    destruct (String.eqb_spec (Js.trim s) ""); split; congruence. }
  destruct v as [| |b|s|t s]; cbn [normalizeRemoteUrl].
  - split; auto.
  - split; auto.
  - rewrite Hs. split; [auto|]. intros [|[|]]; [discriminate|discriminate|assumption].
  - rewrite Hs. split; [auto|]. intros [|[|]]; [discriminate|discriminate|assumption].
  - rewrite Hs. split; [auto|]. intros [|[|]]; [discriminate|discriminate|assumption].
Qed.

(** ** The base64 normalizer and the data URI *)

Lemma normalizeBase64_inv v raw :
  normalizeBase64 v = Some raw ->
  truthy v = true /\ Js.trim (toString v) <> "" /\
  (raw = Js.trim (toString v) \/
   (Js.startsWith (Js.trim (toString v)) "data:" = true /\
    exists pre, Js.trim (toString v) = pre +:+ String "," raw /\ ~ contains pre ",")).
Proof.
  unfold normalizeBase64. destruct (truthy v); cbn [negb]; [|discriminate].
  destruct (String.eqb_spec (Js.trim (toString v)) "") as [|Hne]; [discriminate|].
  destruct (Js.startsWith _ "data:") eqn:Hd; cbn [andb].
  - destruct (Z.leb_spec 0 (Js.indexOf (Js.trim (toString v)) ",")) as [Hi|Hi].
    + intros Hr. injection Hr as <-.
      destruct (indexOf_split _ _ Hi) as (pre & post & Hs & Hn).
      split; [reflexivity|]. split; [exact Hne|]. right. split; [reflexivity|].
      exists pre. rewrite Hs at 1 2 3. rewrite (indexOf_first pre post "," Hn), slice_after.
      auto.
    + intros Hr. injection Hr as <-. auto.
  - intros Hr. injection Hr as <-. auto.
Qed.

Lemma normalizeBase64_no_trailing_space v raw :
  normalizeBase64 v = Some raw -> Js.trimEnd raw = raw.
Proof.
  intros Hr. apply normalizeBase64_inv in Hr as (_ & _ & [->|(_ & pre & Hs & _)]).
  - apply trim_trimEnd.
  - destruct raw as [|c raw]; [reflexivity|].
    apply (trimEnd_suffix (pre +:+ ",")); [|discriminate].
    rewrite append_assoc. change ("," +:+ String c raw) with (String "," (String c raw)).
    rewrite <- Hs. apply trim_trimEnd.
Qed.

Lemma jpegPrefix_no_comma : ~ contains "data:image/jpeg;base64" ",".
Proof. intros Hc. apply indexOf_contains in Hc. vm_compute in Hc. apply Hc. reflexivity. Qed.

Lemma trim_jpegPrefix raw :
  Js.trimEnd raw = raw -> raw <> "" -> Js.trim (jpegPrefix +:+ raw) = jpegPrefix +:+ raw.
Proof.
  intros Hc Hne. unfold Js.trim.
  change (Js.trimStart (jpegPrefix +:+ raw)) with (jpegPrefix +:+ raw).
  apply trimEnd_append; assumption.
Qed.

(** X3: a data URI built by [asImageDataUri] is the fixed prefix followed by
    the normalized payload, which is not empty, and normalizing that data URI
    gives the payload back. *)
Theorem asImageDataUri_roundtrip (v : Value) (uri : string) :
  asImageDataUri v = Some uri ->
  exists raw,
    normalizeBase64 v = Some raw /\ raw <> "" /\ uri = jpegPrefix +:+ raw
    /\ normalizeBase64 (VString uri) = Some raw.
Proof.
  unfold asImageDataUri. destruct (normalizeBase64 v) as [raw|] eqn:Hr; [|discriminate].
  destruct (String.eqb_spec raw "") as [|Hne]; [discriminate|].
  intros Hu. injection Hu as <-. exists raw.
  split; [reflexivity|]. split; [exact Hne|]. split; [reflexivity|].
  pose proof (normalizeBase64_no_trailing_space v raw Hr) as Hc.
  apply (normalizeBase64_strip (jpegPrefix +:+ raw) "data:image/jpeg;base64" raw).
  - rewrite (trim_jpegPrefix raw Hc Hne).
    exact (startsWith_app "data:" ("image/jpeg;base64," +:+ raw)).
  - rewrite (trim_jpegPrefix raw Hc Hne).
    symmetry. exact (append_assoc "data:image/jpeg;base64" "," raw).
  - exact jpegPrefix_no_comma.
Qed.

Lemma asImageDataUri_roundtrip_witness :
  exists raw,
    normalizeBase64 (VString " data:image/png;base64,iVBORw0KGgo= ") = Some raw
    /\ raw <> "" /\ "data:image/jpeg;base64,iVBORw0KGgo=" = jpegPrefix +:+ raw
    /\ normalizeBase64 (VString "data:image/jpeg;base64,iVBORw0KGgo=") = Some raw.
Proof.
  exact (asImageDataUri_roundtrip (VString " data:image/png;base64,iVBORw0KGgo= ")
           "data:image/jpeg;base64,iVBORw0KGgo=" eq_refl).
Defined.

(** X4: what [normalizeBase64] returns never ends in white space; and when
    the trimmed input does not begin with [data:], the result is a fixed
    point: normalizing it again returns it unchanged. *)
Theorem normalizeBase64_stable (v : Value) (raw : string) :
  normalizeBase64 v = Some raw ->
  Js.trimEnd raw = raw
  /\ (Js.startsWith (Js.trim (toString v)) "data:" = false ->
      raw = Js.trim (toString v) /\ normalizeBase64 (VString raw) = Some raw).
Proof.
  intros Hr. split; [apply (normalizeBase64_no_trailing_space v), Hr|].
  intros Hd. apply normalizeBase64_inv in Hr as (_ & Hne & [->|(Hd' & _)]);
    [|rewrite Hd in Hd'; discriminate].
  split; [reflexivity|]. rewrite normalizeBase64_string, trim_idem.
  apply String.eqb_neq in Hne. rewrite Hne, Hd. reflexivity.
Qed.

Lemma normalizeBase64_stable_witness :
  Js.trimEnd "iVBORw0KGgo=" = "iVBORw0KGgo="
  /\ (Js.startsWith (Js.trim (toString (VString "  iVBORw0KGgo= "))) "data:" = false ->
      "iVBORw0KGgo=" = Js.trim (toString (VString "  iVBORw0KGgo= "))
      /\ normalizeBase64 (VString "iVBORw0KGgo=") = Some "iVBORw0KGgo=").
Proof.
  exact (normalizeBase64_stable (VString "  iVBORw0KGgo= ") "iVBORw0KGgo=" eq_refl).
Defined.

(** ** One network call *)

Section OneCall.
Context `{Platform} (w : World).

Lemma violation_none v label :
  violation v label = None ->
  exists n, normalizeRemoteUrl v = Some n /\ assertAllowedRemoteUrl n = Normal tt.
Proof.
  unfold violation. destruct (normalizeRemoteUrl v) as [n|]; [|discriminate].
  destruct (assertAllowedRemoteUrl n) as [[]|] eqn:Hg; [|discriminate].
  intros _. exists n. auto.
Qed.

Lemma downloadOutcome_closing label n reply : closing (snd (downloadOutcome label n reply)).
Proof.
  unfold downloadOutcome, closing.
  destruct reply as [r|e|]; [destruct (ok r); destruct (payload r)| |]; cbn [snd]; auto.
Qed.

Lemma postOutcome_closing url reply : closing (snd (postOutcome w url reply)).
Proof.
  unfold postOutcome, closing.
  destruct reply as [r|e|]; [destruct (payload r)| |]; cbn [snd]; auto.
Qed.

(** X5: the download returns an image only when the guard accepted the URL,
    the response had a success status and its body was read in full; it then
    returns the base64 of that body, and the timer is cleared without an
    abort. *)
Theorem download_success_iff (v : Value) (label : string) (tr : list Event)
    (b : string) (tr' : list Event) :
  downloadRemoteImageAsBase64 w v label tr = (Normal b, tr') <->
  exists n r content,
    normalizeRemoteUrl v = Some n
    /\ assertAllowedRemoteUrl n = Normal tt
    /\ net w (tr ++ [EvSetTimeout (downloadTimeoutMs w)]) (getRequest n) = Responds r
    /\ ok r = true
    /\ payload r = BodyOk content
    /\ b = toBase64 content
    /\ tr' = tr ++ [EvSetTimeout (downloadTimeoutMs w); EvFetch (getRequest n);
                    EvClearTimeout].
Proof.
  split.
  - intros Hd. destruct (violation v label) as [e|] eqn:Hv.
    + rewrite (download_violation w _ _ _ _ Hv) in Hd. discriminate.
    + destruct (violation_none _ _ Hv) as (n & Hn & Hg).
      rewrite (download_run w _ _ _ _ Hn Hg) in Hd. cbn zeta in Hd.
      unfold downloadOutcome in Hd.
      destruct (net w _ _) as [r|e|] eqn:Hnet;
        [|destruct (isAbort e); discriminate|discriminate].
      destruct (ok r) eqn:Hok; destruct (payload r) as [c|e|] eqn:Hp;
        cbn [fst snd] in Hd; try discriminate;
        try (destruct (isAbort e); discriminate).
      injection Hd as <- <-. exists n, r, c. auto 10.
  - intros (n & r & c & Hn & Hg & Hnet & Hok & Hp & -> & ->).
    rewrite (download_run w _ _ _ _ Hn Hg). cbn zeta. unfold downloadOutcome.
    rewrite Hnet, Hok, Hp. reflexivity.
Qed.

(** X6: a response whose status is not a success makes the download fail
    with an error that carries the status code, the label and the body that
    could be read (nothing when the read failed), wrapped with the label and
    the URL; the timer is cleared. *)
Theorem download_http_error (v : Value) (label : string) (tr : list Event)
    (n : string) (r : HttpResponse) :
  normalizeRemoteUrl v = Some n ->
  assertAllowedRemoteUrl n = Normal tt ->
  net w (tr ++ [EvSetTimeout (downloadTimeoutMs w)]) (getRequest n) = Responds r ->
  ok r = false ->
  let snippet := match payload r with BodyOk content => content | _ => "" end in
  exists mid,
    closing mid /\
    downloadRemoteImageAsBase64 w v label tr =
      (Throw (Error ("Could not download " +:+ label +:+ " from " +:+ n +:+ ": "
                     +:+ "HTTP " +:+ Js.ofInt (status r) +:+ " while downloading "
                     +:+ label +:+ ": " +:+ snippet)),
       tr ++ [EvSetTimeout (downloadTimeoutMs w); EvFetch (getRequest n)] ++ mid).
Proof.
  intros Hn Hg Hnet Hok snippet. subst snippet.
  rewrite (download_run w _ _ _ _ Hn Hg). cbn zeta. rewrite Hnet.
  unfold downloadOutcome. rewrite Hok.
  destruct (payload r) as [c|e|]; eexists; (split; [|reflexivity]); unfold closing; auto.
Qed.

(** X7: whatever the network does, a download that failed gives an error
    from one of three families: a refusal before the network, the timeout
    message, or the could-not-download message; the last two name the label
    and the normalized URL. *)
Theorem download_failure_classes (v : Value) (label : string) (tr : list Event)
    (e : JsError) (tr' : list Event) :
  downloadRemoteImageAsBase64 w v label tr = (Throw e, tr') ->
  (violation v label = Some e /\ tr' = tr)
  \/ exists n,
       normalizeRemoteUrl v = Some n /\
       (e = Error ("Timed out downloading " +:+ label +:+ " from " +:+ n)
        \/ exists cause,
             e = Error ("Could not download " +:+ label +:+ " from " +:+ n +:+ ": "
                        +:+ cause)).
Proof.
  intros Hd. destruct (violation v label) as [e'|] eqn:Hv.
  - rewrite (download_violation w _ _ _ _ Hv) in Hd. injection Hd as <- <-. auto.
  - right. destruct (violation_none _ _ Hv) as (n & Hn & Hg). exists n. split; [exact Hn|].
    rewrite (download_run w _ _ _ _ Hn Hg) in Hd. cbn zeta in Hd. unfold downloadOutcome in Hd.
    destruct (net w _ _) as [r|e0|];
      [destruct (ok r); destruct (payload r) as [c|e0|]| |];
      cbn [fst snd] in Hd; try discriminate;
      try (destruct (isAbort e0)); injection Hd as <- _; eauto.
Qed.

(** X8: a download either leaves the trace as it is, or arms one timer,
    calls [fetch] once, for the normalized URL, and clears the timer, after
    an abort if the timer fired: one attempt, and no timer left armed on any
    exit path. *)
Theorem download_trace (v : Value) (label : string) (tr : list Event) :
  snd (downloadRemoteImageAsBase64 w v label tr) = tr
  \/ exists n mid,
       normalizeRemoteUrl v = Some n /\ closing mid /\
       snd (downloadRemoteImageAsBase64 w v label tr) =
         tr ++ [EvSetTimeout (downloadTimeoutMs w); EvFetch (getRequest n)] ++ mid.
Proof.
  destruct (violation v label) as [e|] eqn:Hv.
  - left. rewrite (download_violation w _ _ _ _ Hv). reflexivity.
  - right. destruct (violation_none _ _ Hv) as (n & Hn & Hg).
    rewrite (download_run w _ _ _ _ Hn Hg). cbn zeta.
    exists n, (snd (downloadOutcome label n
                      (net w (tr ++ [EvSetTimeout (downloadTimeoutMs w)]) (getRequest n)))).
    split; [exact Hn|]. split; [apply downloadOutcome_closing|reflexivity].
Qed.

(** X9: a dispatch arms one timer, calls [fetch] exactly once, with the
    JSON headers and the payload, and clears the timer, after an abort if the
    timer fired: there is no retry, and no timer is left armed. *)
Theorem postJson_trace (url : string) (fields : list (string * option string))
    (tr : list Event) :
  exists mid,
    closing mid /\
    snd (postJson w url fields tr) =
      tr ++ [EvSetTimeout (engineTimeoutMs w);
             EvFetch (mkRequest "POST" url jsonHeaders (Some fields))] ++ mid.
Proof.
  rewrite postJson_run. cbn zeta.
  eexists. split; [apply postOutcome_closing|reflexivity].
Qed.

(** How a dispatch can fail: the timer fired, or the call rejected. *)
Lemma postJson_throw_inv url fields tr e tr' :
  postJson w url fields tr = (Throw e, tr') ->
  (e = engineTimedOut w url
   /\ (timerFires (dispatchReply w tr url fields)
       \/ exists cause, rejectsWith (dispatchReply w tr url fields) cause
                        /\ isAbort cause = true))
  \/ (exists cause,
        rejectsWith (dispatchReply w tr url fields) cause
        /\ isAbort cause = false
        /\ e = engineFetchFailed url cause).
Proof.
  rewrite postJson_run. cbn zeta. unfold postOutcome, dispatchReply, rejectsWith, timerFires.
  destruct (net w _ _) as [r|e0|]; [destruct (payload r) as [c|e0|] eqn:Hp| |];
    cbn [fst snd]; try discriminate;
    try (destruct (isAbort e0) eqn:Ha); intros He; injection He as <- _.
  - left. split; [reflexivity|]. right. exists e0. split; [|exact Ha].
    right. exists r. auto.
  - right. exists e0. split; [|split; [exact Ha|reflexivity]]. right. exists r. auto.
  - left. split; [reflexivity|]. left. right. exists r. auto.
  - left. split; [reflexivity|]. right. exists e0. split; [left; reflexivity|exact Ha].
  - right. exists e0. split; [left; reflexivity|]. split; [exact Ha|reflexivity].
  - left. split; [reflexivity|]. left. left. reflexivity.
Qed.

(** X10: with a dispatch timeout of at most 2^53 in absolute value, a
    dispatch fails only in two ways.  Either with the timeout message, which
    names the delay and the endpoint, and then the timer fired or the call
    rejected with an error whose name contains [abort]; or with the
    fetch-failed message, which names the endpoint and carries the message of
    the error the call rejected with, whose name does not contain [abort]. *)
Theorem postJson_failure_classes (url : string) (fields : list (string * option string))
    (tr : list Event) (e : JsError) (tr' : list Event) :
  Z.abs (engineTimeoutMs w) <= 2 ^ 53 ->
  postJson w url fields tr = (Throw e, tr') ->
  (e = Error ("KYC engine timed out after " +:+ Js.ofInt (engineTimeoutMs w)
              +:+ "ms for " +:+ url)
   /\ (timerFires (dispatchReply w tr url fields)
       \/ exists cause, rejectsWith (dispatchReply w tr url fields) cause
                        /\ isAbort cause = true))
  \/ (exists cause,
        rejectsWith (dispatchReply w tr url fields) cause
        /\ isAbort cause = false
        /\ e = Error ("KYC engine fetch failed for " +:+ url +:+ ": " +:+ message cause)).
Proof.
  intros _ Hp. exact (postJson_throw_inv url fields tr e tr' Hp).
Qed.

(** X11: a rejection whose error name contains [abort], in any letter case,
    is reported as a timeout although the timer did not fire: no abort is
    recorded. *)
Theorem abort_named_failure_is_timeout (v : Value) (label : string) (tr : list Event)
    (n : string) (e : JsError) :
  normalizeRemoteUrl v = Some n ->
  assertAllowedRemoteUrl n = Normal tt ->
  net w (tr ++ [EvSetTimeout (downloadTimeoutMs w)]) (getRequest n) = Fails e ->
  Js.includes (Js.toLowerCase (name e)) "abort" = true ->
  downloadRemoteImageAsBase64 w v label tr =
    (Throw (Error ("Timed out downloading " +:+ label +:+ " from " +:+ n)),
     tr ++ [EvSetTimeout (downloadTimeoutMs w); EvFetch (getRequest n); EvClearTimeout]).
Proof.
  intros Hn Hg Hnet Ha. rewrite (download_run w _ _ _ _ Hn Hg). cbn zeta.
  rewrite Hnet. unfold downloadOutcome, isAbort. rewrite Ha. reflexivity.
Qed.

End OneCall.

(** ** Composing traces *)

Section Extends.
Context {A B : Type} (Q : list Event -> Prop).
Hypothesis Q_nil : Q [].
Hypothesis Q_app : forall a b, Q a -> Q b -> Q (a ++ b).

Lemma extends_ret (a : A) : extends Q (ret a).
Proof. intros tr. exists []. rewrite app_nil_r. auto. Qed.

Lemma extends_lift (c : Completion A) : extends Q (lift c).
Proof. intros tr. exists []. rewrite app_nil_r. auto. Qed.

Lemma extends_bind (m : Eff A) (k : A -> Eff B) :
  extends Q m -> (forall a, extends Q (k a)) -> extends Q (bind m k).
Proof.
  intros Hm Hk tr. unfold bind.
  destruct (Hm tr) as (evs & E & F).
  destruct (m tr) as [[a|e] tr']; cbn [snd] in E; subst tr'.
  - destruct (Hk a (tr ++ evs)) as (evs' & E' & F').
    exists (evs ++ evs'). rewrite E', app_assoc. auto.
  - exists evs. auto.
Qed.

Lemma extends_tryCatch (m : Eff A) (h : JsError -> Eff A) :
  extends Q m -> (forall e, extends Q (h e)) -> extends Q (tryCatch m h).
Proof.
  intros Hm Hh tr. unfold tryCatch.
  destruct (Hm tr) as (evs & E & F).
  destruct (m tr) as [[a|e] tr']; cbn [snd] in E; subst tr'.
  - exists evs. auto.
  - destruct (Hh e (tr ++ evs)) as (evs' & E' & F').
    exists (evs ++ evs'). rewrite E', app_assoc. auto.
Qed.

End Extends.

Lemma timers_app a b : timers (a ++ b) = timers a + timers b.
Proof.
  induction a as [|ev a IH]; [reflexivity|].
  destruct ev; cbn [app timers]; lia.
Qed.

Lemma timers_closing ms req mid :
  closing mid -> timers ([EvSetTimeout ms; EvFetch req] ++ mid) = 0.
Proof. intros [-> | ->]; reflexivity. Qed.

Lemma fetches_app a b : fetches (a ++ b) = fetches a ++ fetches b.
Proof.
  induction a as [|ev a IH]; [reflexivity|].
  destruct ev; cbn [app fetches]; rewrite IH; reflexivity.
Qed.

Lemma fetches_closing mid : closing mid -> fetches mid = [].
Proof. intros [-> | ->]; reflexivity. Qed.

(** ** The handlers, end to end *)

Section EndToEnd.
Context `{Platform} (w : World).

(** The relay inside the handler's try/catch, by what the environment and
    the network do. *)
Lemma relay_run path fields tr :
  tryCatch (relay w path fields) onError tr =
    match kycBaseUrl w with
    | Throw e => (Normal (mkReply 500 (ErrorBody (message e))), tr)
    | Normal base =>
        let out := postOutcome w (base +:+ path)
                     (net w (tr ++ [EvSetTimeout (engineTimeoutMs w)])
                        (postRequest (base +:+ path) fields)) in
        (Normal (replyOf (fst out)),
         tr ++ [EvSetTimeout (engineTimeoutMs w);
                EvFetch (postRequest (base +:+ path) fields)] ++ snd out)
    end.
Proof.
  unfold tryCatch, relay, bind, lift, onError, ret.
  destruct (kycBaseUrl w) as [base|e]; [|reflexivity].
  rewrite postJson_run. cbn zeta.
  destruct (postOutcome w _ _) as [[up|e] evs]; reflexivity.
Qed.

Lemma resolveImages_extends (Q : list Event -> Prop) ep input :
  Q [] -> (forall a b, Q a -> Q b -> Q (a ++ b)) ->
  (forall v label, extends Q (downloadRemoteImageAsBase64 w v label)) ->
  extends Q (resolveImages ep w input).
Proof.
  intros Qn Qa Hd.
  assert (Hs : forall image v label, extends Q (resolveSlot w image v label)).
  { intros image v label. unfold resolveSlot.
    destruct (falsy image && truthy v); [|apply extends_ret; assumption].
    apply extends_bind; [assumption|apply Hd|intros b; apply extends_ret; assumption]. }
  destruct ep; unfold resolveImages;
    repeat first [ apply extends_ret; assumption
                 | apply Hs
                 | apply extends_bind; [assumption| |]
                 | intro ].
Qed.

Lemma download_timers v label : extends (fun evs => timers evs = 0)
                                  (downloadRemoteImageAsBase64 w v label).
Proof.
  intros tr. destruct (violation v label) as [e|] eqn:Hv.
  - rewrite (download_violation w _ _ _ _ Hv). exists []. rewrite app_nil_r. auto.
  - destruct (violation_none _ _ Hv) as (n & Hn & Hg).
    rewrite (download_run w _ _ _ _ Hn Hg). cbn zeta. cbn [snd].
    eexists. split; [reflexivity|]. apply timers_closing, downloadOutcome_closing.
Qed.

(** X12: a handler never lets an exception escape, and every reply has one
    of three origins.  It is the 400 reply with the endpoint's missing-image
    message, when the resolution ended with a slot empty.  It is a 500 reply
    with the message of the error that was thrown by the resolution, by
    [kycBaseUrl] or by the dispatch.  Or it is the relay of the response the
    network gave to the dispatch: that response's status, and its body parsed
    or wrapped as raw text. *)
Theorem handler_always_replies (ep : Endpoint) (body : option (gmap string Value))
    (tr : list Event) :
  exists reply tr',
    handler ep w body tr = (Normal reply, tr')
    /\ ((exists images,
           resolveImages ep w (bodyOrEmpty body) tr = (Normal images, tr')
           /\ existsb falsy images = true
           /\ reply = mkReply 400 (ErrorBody (missingMessage ep)))
        \/ (exists e,
              reply = mkReply 500 (ErrorBody (message e))
              /\ (resolveImages ep w (bodyOrEmpty body) tr = (Throw e, tr')
                  \/ exists images tr1,
                       resolveImages ep w (bodyOrEmpty body) tr = (Normal images, tr1)
                       /\ existsb falsy images = false
                       /\ ((kycBaseUrl w = Throw e /\ tr' = tr1)
                           \/ exists base,
                                kycBaseUrl w = Normal base
                                /\ postJson w (base +:+ upstreamPath ep) (fieldsOf images) tr1
                                   = (Throw e, tr'))))
        \/ (exists images tr1 base r text,
              resolveImages ep w (bodyOrEmpty body) tr = (Normal images, tr1)
              /\ existsb falsy images = false
              /\ kycBaseUrl w = Normal base
              /\ dispatchReply w tr1 (base +:+ upstreamPath ep) (fieldsOf images) = Responds r
              /\ payload r = BodyOk text
              /\ reply = mkReply (status r) (DataBody (parsedOrRaw text)))).
Proof.
  destruct (resolveImages ep w (bodyOrEmpty body) tr) as [[images|e] tr1] eqn:Hr.
  - destruct (existsb falsy images) eqn:Hf.
    + rewrite (handler_run_missing w _ _ _ _ _ Hr Hf).
      do 2 eexists. split; [reflexivity|]. left. exists images. auto.
    + rewrite (handler_run_relay w _ _ _ _ _ Hr Hf).
      unfold tryCatch, relay, bind, lift, onError, ret.
      destruct (kycBaseUrl w) as [base|e] eqn:Hb.
      * destruct (postJson w (base +:+ upstreamPath ep) (fieldsOf images) tr1)
          as [[up|e] tr2] eqn:Hp.
        -- do 2 eexists. split; [reflexivity|]. right. right.
           destruct (postJson_normal w _ _ _ _ _ Hp) as (r & text & Hnet & Hbody & ->).
           exists images, tr1, base, r, text. auto 10.
        -- do 2 eexists. split; [reflexivity|]. right. left. exists e.
           split; [reflexivity|]. right. exists images, tr1.
           split; [reflexivity|]. split; [exact Hf|]. right. exists base. auto.
      * do 2 eexists. split; [reflexivity|]. right. left. exists e.
        split; [reflexivity|]. right. exists images, tr1.
        split; [reflexivity|]. split; [exact Hf|]. left. auto.
  - rewrite (handler_run_throw w _ _ _ _ _ Hr).
    do 2 eexists. split; [reflexivity|]. right. left. exists e. auto.
Qed.

(** X13: the network calls of a handler come in this order: first the
    downloads, all of them GETs; then at most one dispatch, a POST to the
    configured base URL followed by the endpoint's path, carrying images none
    of which is null or empty.  Nothing follows the dispatch but the clearing
    of its timer. *)
Theorem handler_trace_shape (ep : Endpoint) (body : option (gmap string Value))
    (tr : list Event) :
  exists downloads dispatch,
    snd (handler ep w body tr) = tr ++ downloads ++ dispatch
    /\ Forall notPost downloads
    /\ (dispatch = []
        \/ exists base images mid,
             kycBaseUrl w = Normal base
             /\ fst (resolveImages ep w (bodyOrEmpty body) tr) = Normal images
             /\ existsb falsy images = false
             /\ closing mid
             /\ dispatch = [EvSetTimeout (engineTimeoutMs w);
                            EvFetch (postRequest (base +:+ upstreamPath ep) (fieldsOf images))]
                           ++ mid).
Proof.
  destruct (resolveImages_appends w notPost ep (bodyOrEmpty body)) with (tr := tr)
    as (downloads & E & F); try exact I; [intros n _; reflexivity|intros ms; exact I|].
  destruct (resolveImages ep w (bodyOrEmpty body) tr) as [[images|e] tr1] eqn:Hr;
    cbn [snd] in E; subst tr1.
  - destruct (existsb falsy images) eqn:Hf.
    + rewrite (handler_run_missing w _ _ _ _ _ Hr Hf).
      exists downloads, []. rewrite app_nil_r. auto.
    + rewrite (handler_run_relay w _ _ _ _ _ Hr Hf), relay_run.
      destruct (kycBaseUrl w) as [base|e] eqn:Hb.
      * cbn zeta. cbn [snd]. eexists downloads, _. rewrite <- app_assoc.
        split; [reflexivity|]. split; [exact F|]. right.
        exists base, images, (snd (postOutcome w (base +:+ upstreamPath ep)
                                     (net w ((tr ++ downloads) ++
                                             [EvSetTimeout (engineTimeoutMs w)])
                                        (postRequest (base +:+ upstreamPath ep)
                                           (fieldsOf images))))).
        split; [reflexivity|]. split; [reflexivity|]. split; [exact Hf|].
        split; [apply postOutcome_closing|reflexivity].
      * exists downloads, []. rewrite app_nil_r. auto.
  - rewrite (handler_run_throw w _ _ _ _ _ Hr).
    exists downloads, []. rewrite app_nil_r. auto.
Qed.

(** X14: over a whole request, every timer that a handler arms is cleared
    before the handler replies, whichever way the request ends. *)
Theorem handler_clears_timers (ep : Endpoint) (body : option (gmap string Value))
    (tr : list Event) :
  exists evs, snd (handler ep w body tr) = tr ++ evs /\ timers evs = 0.
Proof.
  assert (Qa : forall a b, timers a = 0 -> timers b = 0 -> timers (a ++ b) = 0).
  { intros a b Ha Hb. rewrite timers_app. lia. }
  destruct (resolveImages_extends (fun evs => timers evs = 0) ep (bodyOrEmpty body)
              eq_refl Qa download_timers tr) as (evs & E & F).
  destruct (resolveImages ep w (bodyOrEmpty body) tr) as [[images|e] tr1] eqn:Hr;
    cbn [snd] in E; subst tr1.
  - destruct (existsb falsy images) eqn:Hf.
    + rewrite (handler_run_missing w _ _ _ _ _ Hr Hf). exists evs. auto.
    + rewrite (handler_run_relay w _ _ _ _ _ Hr Hf), relay_run.
      destruct (kycBaseUrl w) as [base|e]; [|exists evs; auto].
      cbn zeta. cbn [snd]. eexists. rewrite <- app_assoc. split; [reflexivity|].
      apply Qa; [exact F|]. apply timers_closing, postOutcome_closing.
  - rewrite (handler_run_throw w _ _ _ _ _ Hr). exists evs. auto.
Qed.

End EndToEnd.

Section Requests.
Context `{Platform} (w : World).

Lemma resolveImages_inline ep input tr :
  existsb falsy (inlineImages ep input) = false ->
  resolveImages ep w input tr = (Normal (inlineImages ep input), tr).
Proof.
  destruct ep; cbn [inlineImages existsb]; rewrite ?orb_false_r; intros Hf;
    try apply orb_false_iff in Hf as [Hf1 Hf2];
    unfold resolveImages, bind;
    rewrite ?(resolveSlot_keep w _ _ _ _ (or_introl Hf)),
            ?(resolveSlot_keep w _ _ _ _ (or_introl Hf1)),
            ?(resolveSlot_keep w _ _ _ _ (or_introl Hf2)); reflexivity.
Qed.

(** X15: when every slot of a request has a usable inline image, the remote
    URL fields are not looked at: no download is made, even for a URL the
    guard would refuse, and the handler goes straight to the dispatch of the
    inline images. *)
Theorem inline_image_skips_download (ep : Endpoint) (body : option (gmap string Value))
    (tr : list Event) :
  existsb falsy (inlineImages ep (bodyOrEmpty body)) = false ->
  handler ep w body tr =
    match kycBaseUrl w with
    | Throw e => (Normal (mkReply 500 (ErrorBody (message e))), tr)
    | Normal base =>
        let req := postRequest (base +:+ upstreamPath ep)
                     (fieldsOf (inlineImages ep (bodyOrEmpty body))) in
        let out := postOutcome w (base +:+ upstreamPath ep)
                     (net w (tr ++ [EvSetTimeout (engineTimeoutMs w)]) req) in
        (Normal (replyOf (fst out)),
         tr ++ [EvSetTimeout (engineTimeoutMs w); EvFetch req] ++ snd out)
    end.
Proof.
  intros Hf.
  rewrite (handler_run_relay w ep body tr _ tr (resolveImages_inline _ _ _ Hf) Hf).
  apply relay_run.
Qed.


(** X17: whatever makes the download for the first slot fail, the handler
    answers 500 with that error's message and stops there: the trace is the
    one the failed download left, so no later download and no dispatch is
    started. *)
Theorem download_failure_is_500 (ep : Endpoint) (body : option (gmap string Value))
    (tr : list Event) (e : JsError) (tr' : list Event) :
  falsy (normalizeBase64 (slotInline ep (bodyOrEmpty body))) = true ->
  truthy (slotUrl ep (bodyOrEmpty body)) = true ->
  downloadRemoteImageAsBase64 w (slotUrl ep (bodyOrEmpty body)) (slotLabel ep) tr
    = (Throw e, tr') ->
  handler ep w body tr = (Normal (mkReply 500 (ErrorBody (message e))), tr').
Proof.
  intros Hi Hv Hd.
  apply handler_run_throw, resolveImages_first_throw; assumption.
Qed.

(** X18: with a dispatch timeout of at most 2^53 in absolute value: when
    the images are resolved and the dispatch itself fails, the handler answers
    500 with the dispatcher's message.  That is the timeout message for the
    endpoint's URL, when the timer fired or the call rejected with an error
    named like an abort; otherwise the fetch-failed message for that URL with
    the message of the error the call rejected with. *)
Theorem dispatch_failure_is_500 (ep : Endpoint) (body : option (gmap string Value))
    (tr tr1 tr2 : list Event) (images : list (option string)) (base : string)
    (e : JsError) :
  Z.abs (engineTimeoutMs w) <= 2 ^ 53 ->
  resolveImages ep w (bodyOrEmpty body) tr = (Normal images, tr1) ->
  existsb falsy images = false ->
  kycBaseUrl w = Normal base ->
  postJson w (base +:+ upstreamPath ep) (fieldsOf images) tr1 = (Throw e, tr2) ->
  let url := base +:+ upstreamPath ep in
  let reply := dispatchReply w tr1 url (fieldsOf images) in
  handler ep w body tr = (Normal (mkReply 500 (ErrorBody (message e))), tr2)
  /\ ((message e = "KYC engine timed out after " +:+ Js.ofInt (engineTimeoutMs w)
                   +:+ "ms for " +:+ url
       /\ (timerFires reply
           \/ exists cause, rejectsWith reply cause /\ isAbort cause = true))
      \/ (exists cause,
            rejectsWith reply cause /\ isAbort cause = false
            /\ message e = "KYC engine fetch failed for " +:+ url +:+ ": "
                           +:+ message cause)).
Proof.
  intros _ Hr Hf Hb Hp url reply. split.
  - rewrite (handler_run_relay w _ _ _ _ _ Hr Hf).
    unfold tryCatch, relay, bind, lift. rewrite Hb, Hp. reflexivity.
  - destruct (postJson_throw_inv w _ _ _ _ _ Hp) as [[-> Hw]|(cause & Hc & Ha & ->)].
    + left. split; [reflexivity|exact Hw].
    + right. exists cause. split; [exact Hc|]. split; [exact Ha|reflexivity].
Qed.

(** X19: when [KYC_API_URL] is not usable, no handler ever posts to the
    upstream; a request whose images are resolved is answered 500 with the
    message that the variable is required, after the downloads it needed. *)
Theorem missing_engine_url (e : JsError) :
  kycBaseUrl w = Throw e ->
  e = Error "KYC_API_URL is required (example: http://127.0.0.1:7860 or https://xxxx.hf.space)"
  /\ (forall ep body tr,
        exists evs, snd (handler ep w body tr) = tr ++ evs /\ Forall notPost evs)
  /\ (forall ep body tr images tr1,
        resolveImages ep w (bodyOrEmpty body) tr = (Normal images, tr1) ->
        existsb falsy images = false ->
        handler ep w body tr = (Normal (mkReply 500 (ErrorBody (message e))), tr1)).
Proof.
  intros Hb. split; [|split].
  - unfold kycBaseUrl in Hb. destruct (String.eqb _ ""); [|discriminate].
    injection Hb as <-. reflexivity.
  - intros ep body tr.
    destruct (resolveImages_appends w notPost ep (bodyOrEmpty body)) with (tr := tr)
      as (evs & E & F); try exact I; [intros n _; reflexivity|intros ms; exact I|].
    exists evs. split; [|exact F].
    destruct (resolveImages ep w (bodyOrEmpty body) tr) as [[images|e'] tr1] eqn:Hr;
      cbn [snd] in E; subst tr1.
    + destruct (existsb falsy images) eqn:Hf.
      * rewrite (handler_run_missing w _ _ _ _ _ Hr Hf). reflexivity.
      * rewrite (handler_run_relay w _ _ _ _ _ Hr Hf), relay_run, Hb. reflexivity.
    + rewrite (handler_run_throw w _ _ _ _ _ Hr). reflexivity.
  - intros ep body tr images tr1 Hr Hf.
    rewrite (handler_run_relay w _ _ _ _ _ Hr Hf), relay_run, Hb. reflexivity.
Qed.

(** X20: a first-choice image field that holds only white space hides the
    alias fields: the slot counts as having no inline image whatever the
    aliases hold, and without a URL the single-image endpoints answer 400. *)
Theorem blank_primary_field_hides_aliases (ep : Endpoint)
    (body : option (gmap string Value)) (tr : list Event) (s : string) :
  bodyOrEmpty body !! primaryField ep = Some (VString s) ->
  s <> "" ->
  allWhite s = true ->
  normalizeBase64 (slotInline ep (bodyOrEmpty body)) = None
  /\ (ep <> FaceVerify ->
      truthy (slotUrl ep (bodyOrEmpty body)) = false ->
      handler ep w body tr = (Normal (mkReply 400 (ErrorBody (missingMessage ep))), tr)).
Proof.
  intros Hp Hne Hw.
  assert (Hs : slotInline ep (bodyOrEmpty body) = VString s).
  { apply String.eqb_neq in Hne.
    destruct ep; unfold slotInline, field, or_; cbn [primaryField] in Hp;
      rewrite Hp; cbn [truthy negb]; rewrite Hne; cbn [truthy negb];
      rewrite ?Hne; reflexivity. }
  assert (Hn : normalizeBase64 (slotInline ep (bodyOrEmpty body)) = None).
  { rewrite Hs, normalizeBase64_string.
    apply trim_empty_iff in Hw. rewrite Hw. reflexivity. }
  split; [exact Hn|]. intros Hep Hu.
  apply (handler_run_missing w ep body tr [None]); [|reflexivity].
  destruct ep; [|contradiction|]; unfold resolveImages, bind;
    rewrite (resolveSlot_keep w _ _ _ _ (or_intror Hu)), Hn; reflexivity.
Qed.

End Requests.

(** ** Configuration *)

Lemma digits_step c acc r :
  Js.isDigit c = true ->
  Js.digits acc (String c r) =
    Js.digits (Some (10 * (match acc with Some a => a | None => 0 end) + Js.digitVal c)) r.
Proof. intros Hc. cbn [Js.digits]. rewrite Hc. reflexivity. Qed.

Lemma digits_pos d : forall a,
  Js.digits (Some (Z.pos a)) (NilEmpty.string_of_uint d) = Some (Z.pos (Pos.of_uint_acc d a)).
Proof.
  induction d as [|d IH|d IH|d IH|d IH|d IH|d IH|d IH|d IH|d IH|d IH]; intros a;
    cbn [NilEmpty.string_of_uint Pos.of_uint_acc]; [reflexivity|..];
    rewrite digits_step by reflexivity;
    match goal with
    | |- context [Js.digitVal ?c] =>
        let k := eval vm_compute in (Js.digitVal c) in change (Js.digitVal c) with k
    end;
    rewrite <- IH; do 2 f_equal; lia.
Qed.

Lemma digits_zero d :
  Js.digits (Some 0) (NilEmpty.string_of_uint d) = Some (Z.of_N (Pos.of_uint d)).
Proof.
  induction d as [|d IH|d IH|d IH|d IH|d IH|d IH|d IH|d IH|d IH|d IH];
    cbn [NilEmpty.string_of_uint Pos.of_uint]; [reflexivity|..];
    rewrite digits_step by reflexivity;
    [exact IH|..]; exact (digits_pos d _).
Qed.

Lemma digits_none d :
  d <> Decimal.Nil ->
  Js.digits None (NilEmpty.string_of_uint d) = Some (Z.of_N (Pos.of_uint d)).
Proof.
  intros Hd. rewrite <- digits_zero.
  destruct d; [contradiction|..]; cbn [NilEmpty.string_of_uint];
    rewrite !digits_step by reflexivity; reflexivity.
Qed.

Lemma parseInt_digit_head c r :
  Js.isDigit c = true -> Js.parseInt (String c r) = Js.digits None (String c r).
Proof.
  destruct c as [[] [] [] [] [] [] [] []]; try discriminate; intros _; reflexivity.
Qed.

Lemma string_of_uint_head d :
  d <> Decimal.Nil ->
  exists c r, NilEmpty.string_of_uint d = String c r /\ Js.isDigit c = true.
Proof.
  destruct d; [contradiction|..]; intros _; cbn [NilEmpty.string_of_uint];
    eexists _, _; split; reflexivity.
Qed.

Lemma parseInt_uint p :
  Js.parseInt (NilZero.string_of_uint (Pos.to_uint p)) = Some (Z.pos p).
Proof.
  pose proof (Unsigned.to_uint_nonnil p) as Hn.
  assert (Hz : NilZero.string_of_uint (Pos.to_uint p)
               = NilEmpty.string_of_uint (Pos.to_uint p)).
  { unfold NilZero.string_of_uint. destruct (Pos.to_uint p); [contradiction|..]; reflexivity. }
  rewrite Hz. destruct (string_of_uint_head _ Hn) as (c & r & Hs & Hc).
  rewrite Hs, (parseInt_digit_head c r Hc), <- Hs, (digits_none _ Hn), Unsigned.of_to.
  reflexivity.
Qed.

(** [parseInt] reads back the decimal numeral of every integer. *)
Lemma parseInt_ofInt z : Js.parseInt (Js.ofInt z) = Some z.
Proof.
  destruct z as [|p|p]; [reflexivity|apply parseInt_uint|].
  unfold Js.ofInt. cbn [Z.to_int NilZero.string_of_int].
  pose proof (Unsigned.to_uint_nonnil p) as Hn.
  assert (Hz : NilZero.string_of_uint (Pos.to_uint p)
               = NilEmpty.string_of_uint (Pos.to_uint p)).
  { unfold NilZero.string_of_uint. destruct (Pos.to_uint p); [contradiction|..]; reflexivity. }
  rewrite Hz. unfold Js.parseInt. cbn [Js.trimStart Js.isWhite N_of_ascii].
  change (Js.isWhite "-") with false. cbv iota.
  rewrite (digits_none _ Hn), Unsigned.of_to. reflexivity.
Qed.

Lemma ofInt_nonempty z : Js.ofInt z <> "".
Proof. intros He. pose proof (parseInt_ofInt z) as Hp. rewrite He in Hp. discriminate. Qed.

Lemma envOr_set w k dflt s : env w !! k = Some s -> s <> "" -> envOr w k dflt = s.
Proof.
  intros He Hs. unfold envOr. rewrite He. apply String.eqb_neq in Hs. rewrite Hs. reflexivity.
Qed.






(** X23: the listen port is 8085 when [PORT] is unset or empty, and the
    integer whose decimal numeral [PORT] holds (for integers a JavaScript
    number represents exactly); unlike the timeouts it has no fallback: a
    value that does not begin with a number gives NaN. *)
Theorem port_setting (w : World) :
  (env w !! "PORT" = None \/ env w !! "PORT" = Some "" -> port w = Some 8085)
  /\ (forall z, Z.abs z <= 2 ^ 53 -> env w !! "PORT" = Some (Js.ofInt z) -> port w = Some z)
  /\ (forall s, env w !! "PORT" = Some s -> s <> "" -> Js.parseInt s = None ->
        port w = None).
Proof.
  unfold port. split; [|split].
  - intros [He|He]; unfold envOr; rewrite He; reflexivity.
  - intros z _ He. rewrite (envOr_set _ _ _ _ He (ofInt_nonempty z)). apply parseInt_ofInt.
  - intros s He Hs Hp. rewrite (envOr_set _ _ _ _ He Hs). exact Hp.
Qed.

Lemma port_setting_witness :
  port Scenario.stalling = Some 8085
  /\ port (Worlds.setenv "PORT" "3000" Scenario.stalling) = Some 3000
  /\ port (Worlds.setenv "PORT" "http" Scenario.stalling) = None.
Proof.
  split; [|split].
  - apply (proj1 (port_setting Scenario.stalling)). left. reflexivity.
  - refine (proj1 (proj2 (port_setting (Worlds.setenv "PORT" "3000" Scenario.stalling)))
              3000 _ eq_refl).
    vm_compute. discriminate.
  - apply (proj2 (proj2 (port_setting (Worlds.setenv "PORT" "http" Scenario.stalling)))
             "http"); [reflexivity|discriminate|reflexivity].
Defined.

Lemma dropTrailingSlash_empty_iff t :
  Js.dropTrailingSlash t = "" <-> t = "" \/ t = "/".
Proof.
  destruct t as [|c [|d r]]; cbn [Js.dropTrailingSlash].
  - tauto.
  - destruct (Ascii.eqb_spec c "/") as [->|Hc].
    + tauto.
    + split; [discriminate|]. intros [|Hs]; [discriminate|]. injection Hs as Hs. contradiction.
  - split; [discriminate|]. intros [|]; discriminate.
Qed.

(** X24: the dispatcher finds a base URL exactly when the diagnostic
    endpoint reports [hasKycApiUrl] and the configured value is more than a
    lone slash; the base URL is then the trimmed value without one trailing
    slash. *)
Theorem base_url_vs_version_flag (w : World) (base : string) :
  kycBaseUrl w = Normal base <->
  v_hasKycApiUrl (version "" w) = true
  /\ exists v, env w !! "KYC_API_URL" = Some v /\ Js.trim v <> "/"
               /\ base = Js.dropTrailingSlash (Js.trim v).
Proof.
  unfold version, hasKycApiUrl, kycBaseUrl, envOr. cbn [v_hasKycApiUrl].
  destruct (env w !! "KYC_API_URL") as [v|].
  - destruct (String.eqb_spec v "") as [->|Hv].
    + split; [discriminate|]. intros [Hf _]. discriminate.
    + destruct (String.eqb_spec (Js.dropTrailingSlash (Js.trim v)) "") as [Hd|Hd].
      * split; [discriminate|]. intros (Hf & v' & Hv' & Hs & _).
        injection Hv' as <-. apply dropTrailingSlash_empty_iff in Hd as [Hd|Hd];
          [rewrite Hd in Hf; discriminate|contradiction].
      * split.
        -- intros Hb. injection Hb as <-. split.
           ++ destruct (Js.trim v); [contradiction|reflexivity].
           ++ exists v. split; [reflexivity|]. split; [|reflexivity].
              intros Hs. apply Hd. rewrite Hs. reflexivity.
        -- intros (_ & v' & Hv' & _ & ->). injection Hv' as <-. reflexivity.
  - split; [discriminate|]. intros [Hf _]. discriminate.
Qed.

(** ** More concrete runs *)

Lemma download_http_error_witness :
  exists mid,
    closing mid /\
    downloadRemoteImageAsBase64 (H := Node.platform)
      (Worlds.answering (mkResponse 404 (BodyOk "nope")))
      (VString Worlds.demoUrl) "CNIC image" [] =
    (Throw (Error ("Could not download CNIC image from https://res.cloudinary.com/demo/x.jpg: "
                   +:+ "HTTP 404 while downloading CNIC image: nope")),
     [EvSetTimeout 45000; EvFetch (getRequest Worlds.demoUrl)] ++ mid).
Proof.
  exact (download_http_error (H := Node.platform)
           (Worlds.answering (mkResponse 404 (BodyOk "nope")))
           (VString Worlds.demoUrl) "CNIC image" [] Worlds.demoUrl
           (mkResponse 404 (BodyOk "nope")) eq_refl eq_refl eq_refl eq_refl).
Defined.

Lemma download_failure_classes_witness :
  (violation (H := Node.platform) (VString Worlds.demoUrl) "CNIC image"
     = Some (Error "Timed out downloading CNIC image from https://res.cloudinary.com/demo/x.jpg")
   /\ [EvSetTimeout 45000; EvFetch (getRequest Worlds.demoUrl); EvAbort; EvClearTimeout] = [])
  \/ exists n,
       normalizeRemoteUrl (VString Worlds.demoUrl) = Some n /\
       (Error "Timed out downloading CNIC image from https://res.cloudinary.com/demo/x.jpg"
          = Error ("Timed out downloading " +:+ "CNIC image" +:+ " from " +:+ n)
        \/ exists cause,
             Error "Timed out downloading CNIC image from https://res.cloudinary.com/demo/x.jpg"
               = Error ("Could not download " +:+ "CNIC image" +:+ " from " +:+ n +:+ ": "
                        +:+ cause)).
Proof.
  exact (download_failure_classes (H := Node.platform) Scenario.stalling
           (VString Worlds.demoUrl) "CNIC image" []
           (Error "Timed out downloading CNIC image from https://res.cloudinary.com/demo/x.jpg")
           [EvSetTimeout 45000; EvFetch (getRequest Worlds.demoUrl); EvAbort; EvClearTimeout]
           eq_refl).
Defined.

Lemma postJson_failure_classes_witness :
  let w := Worlds.failing (mkError "TypeError" "fetch failed") in
  let url := "http://127.0.0.1:7860/verify-cnic" in
  let fields := imageFields (Some "aW1n") in
  let e := Error "KYC engine fetch failed for http://127.0.0.1:7860/verify-cnic: fetch failed" in
  (e = Error ("KYC engine timed out after " +:+ Js.ofInt (engineTimeoutMs w)
              +:+ "ms for " +:+ url)
   /\ (timerFires (dispatchReply w [] url fields)
       \/ exists cause, rejectsWith (dispatchReply w [] url fields) cause
                        /\ isAbort cause = true))
  \/ (exists cause,
        rejectsWith (dispatchReply w [] url fields) cause
        /\ isAbort cause = false
        /\ e = Error ("KYC engine fetch failed for " +:+ url +:+ ": " +:+ message cause)).
Proof.
  refine (postJson_failure_classes (H := Node.platform)
            (Worlds.failing (mkError "TypeError" "fetch failed"))
            "http://127.0.0.1:7860/verify-cnic" (imageFields (Some "aW1n")) []
            (Error "KYC engine fetch failed for http://127.0.0.1:7860/verify-cnic: fetch failed")
            [EvSetTimeout 60000;
             EvFetch (postRequest "http://127.0.0.1:7860/verify-cnic"
                        (imageFields (Some "aW1n")));
             EvClearTimeout]
            _ eq_refl).
  vm_compute. discriminate.
Defined.

Lemma abort_named_failure_is_timeout_witness :
  downloadRemoteImageAsBase64 (H := Node.platform)
    (Worlds.failing (mkError "ABORT_ERR" "socket closed"))
    (VString Worlds.demoUrl) "CNIC image" [] =
  (Throw (Error "Timed out downloading CNIC image from https://res.cloudinary.com/demo/x.jpg"),
   [EvSetTimeout 45000; EvFetch (getRequest Worlds.demoUrl); EvClearTimeout]).
Proof.
  exact (abort_named_failure_is_timeout (H := Node.platform)
           (Worlds.failing (mkError "ABORT_ERR" "socket closed"))
           (VString Worlds.demoUrl) "CNIC image" [] Worlds.demoUrl
           (mkError "ABORT_ERR" "socket closed") eq_refl eq_refl eq_refl eq_refl).
Defined.

Lemma inline_image_skips_download_witness :
  handler (H := Node.platform) VerifyCnic (Scenario.serving "img" Scenario.okJson)
    Worlds.inlineAndBadUrl [] =
  (Normal (mkReply 200 (DataBody (@Parsed Node.platform (Node.JObject [])))),
   [EvSetTimeout 60000;
    EvFetch (postRequest "http://127.0.0.1:7860/verify-cnic"
               (imageFields (Some "iVBORw0KGgo=")));
    EvClearTimeout]).
Proof.
  exact (inline_image_skips_download (H := Node.platform)
           (Scenario.serving "img" Scenario.okJson) VerifyCnic Worlds.inlineAndBadUrl []
           eq_refl).
Defined.


Lemma download_failure_is_500_witness :
  handler (H := Node.platform) VerifyCnic Scenario.stalling Scenario.remoteRequest [] =
  (Normal (mkReply 500 (ErrorBody
     "Timed out downloading CNIC image from https://res.cloudinary.com/demo/x.jpg")),
   [EvSetTimeout 45000; EvFetch (getRequest Worlds.demoUrl); EvAbort; EvClearTimeout]).
Proof.
  exact (download_failure_is_500 (H := Node.platform) Scenario.stalling VerifyCnic
           Scenario.remoteRequest []
           (Error "Timed out downloading CNIC image from https://res.cloudinary.com/demo/x.jpg")
           [EvSetTimeout 45000; EvFetch (getRequest Worlds.demoUrl); EvAbort; EvClearTimeout]
           eq_refl eq_refl eq_refl).
Defined.

Lemma dispatch_failure_is_500_witness :
  handler (H := Node.platform) VerifyCnic Scenario.stalling Scenario.inlineRequest [] =
  (Normal (mkReply 500 (ErrorBody
     "KYC engine timed out after 60000ms for http://127.0.0.1:7860/verify-cnic")),
   [EvSetTimeout 60000;
    EvFetch (postRequest "http://127.0.0.1:7860/verify-cnic"
               (imageFields (Some "iVBORw0KGgo=")));
    EvAbort; EvClearTimeout]).
Proof.
  refine (proj1 (dispatch_failure_is_500 (H := Node.platform) Scenario.stalling VerifyCnic
                   Scenario.inlineRequest [] [] _ [Some "iVBORw0KGgo="]
                   "http://127.0.0.1:7860"
                   (Error "KYC engine timed out after 60000ms for http://127.0.0.1:7860/verify-cnic")
                   _ eq_refl eq_refl eq_refl eq_refl)).
  vm_compute. discriminate.
Defined.

Lemma missing_engine_url_witness :
  handler (H := Node.platform) VerifyCnic Worlds.unconfigured Scenario.inlineRequest [] =
  (Normal (mkReply 500 (ErrorBody
     "KYC_API_URL is required (example: http://127.0.0.1:7860 or https://xxxx.hf.space)")),
   []).
Proof.
  exact (proj2 (proj2 (missing_engine_url (H := Node.platform) Worlds.unconfigured
                         (Error "KYC_API_URL is required (example: http://127.0.0.1:7860 or https://xxxx.hf.space)")
                         eq_refl))
               VerifyCnic Scenario.inlineRequest [] [Some "iVBORw0KGgo="] []
               eq_refl eq_refl).
Defined.

Lemma blank_primary_field_hides_aliases_witness :
  handler (H := Node.platform) VerifyCnic (Scenario.serving "img" Scenario.okJson)
    Worlds.blankPrimary [] =
  (Normal (mkReply 400 (ErrorBody missingCnicImage)), []).
Proof.
  refine (proj2 (blank_primary_field_hides_aliases (H := Node.platform)
                   (Scenario.serving "img" Scenario.okJson) VerifyCnic
                   Worlds.blankPrimary [] " " eq_refl _ eq_refl) _ eq_refl);
    discriminate.
Defined.

(** ** Timeouts of the download, for every slot *)

Section Timeout.
Context `{Platform} (w : World).


End Timeout.


(** C7, as stated, fails: on the face-verify endpoint a request whose first
    slot has neither an inline image nor a URL, and whose second slot has a
    URL that the guard refuses, is answered 500, not 400: the download for
    the second slot is attempted, and throws, before the missing image is
    looked for. *)
Lemma unresolved_slot_can_give_500 :
  let body : option (gmap string Value) :=
    Some {[ "image2Url" := VString "http://evil.example/x.jpg" ]} in
  normalizeBase64 (slotInline FaceVerify (bodyOrEmpty body)) = None
  /\ truthy (slotUrl FaceVerify (bodyOrEmpty body)) = false
  /\ face_verify (H := Node.platform) (Scenario.serving "img" Scenario.okJson) body [] =
     (Normal (mkReply 500
        (ErrorBody "Only https URLs are allowed: http://evil.example/x.jpg")), [])
  /\ ~ clientError 500.
Proof.
  cbv zeta. split; [reflexivity|]. split; [reflexivity|]. split; [reflexivity|].
  unfold clientError. lia.
Qed.
